(** * Geometry partitions of [warp.fem.geometry.partition]

    A shallow embedding of [src/warp/fem/geometry/partition.py] and the
    properties of its three partition strategies (whole, linear, explicit)
    and of the side-classification kernel they share.

    Conventions of the embedding:
    - a Python [int] is a [Z]; a Warp kernel [int] is a 32-bit signed
      integer, a [Z] whose arithmetic is wrapped by [Int32.wrap];
    - a [wp.array(dtype=int)] is a [list Z]; an access outside the array is
      undefined in a kernel and is the [None] of [option];
    - [wp.launch] over a 1-D domain runs the kernel once per thread index;
      the kernel state is passed explicitly. *)

From Stdlib Require Import ZArith Lia Bool String Sorted.
From stdpp Require Import base option list numbers.

Local Open Scope Z_scope.

(** ** Warp scalars and arrays *)

Module Int32.

Definition min_signed : Z := - 2 ^ 31.
Definition max_signed : Z := 2 ^ 31 - 1.

(** Two's complement reduction of an unbounded integer to 32 bits. *)
Definition wrap (z : Z) : Z := (z + 2 ^ 31) mod 2 ^ 32 - 2 ^ 31.

Definition in_range (z : Z) : Prop := min_signed <= z <= max_signed.

Definition add (a b : Z) : Z := wrap (a + b).
Definition sub (a b : Z) : Z := wrap (a - b).

End Int32.

Module WarpArray.

(** [wp.zeros(shape=(n,), dtype=int)]: a negative shape is refused. *)
Definition zeros (n : Z) : option (list Z) :=
  if decide (0 <= n) then Some (replicate (Z.to_nat n) 0) else None.

(** [a.shape[0]] *)
Definition shape0 (a : list Z) : Z := Z.of_nat (length a).

(** [a[i]] read in a kernel.  Warp does not check the bounds: a read
    outside the array is undefined behaviour, for which [None] stands.  A
    run that is [Some] made no such access; of a run that is [None] the
    embedding says nothing, neither that the code stops nor what it
    returns. *)
Definition load (a : list Z) (i : Z) : option Z :=
  if decide (0 <= i) then a !! Z.to_nat i else None.

(** [a[i] = v] in a kernel; outside the array as for [load]. *)
Definition store (a : list Z) (i : Z) (v : Z) : option (list Z) :=
  if decide (0 <= i < shape0 a) then Some (<[Z.to_nat i := v]> a) else None.

(** [wp.launch(dim=dim, kernel=kernel, inputs=st)]: thread indices
    [tid, tid+1, ..., tid+count-1] in turn. *)
Fixpoint launch_from {S : Type} (kernel : Z -> S -> option S)
    (tid : Z) (count : nat) (st : S) : option S :=
  match count with
  | O => Some st
  | Datatypes.S c => st' ← kernel tid st; launch_from kernel (tid + 1) c st'
  end.

Definition launch {S : Type} (dim : Z) (kernel : Z -> S -> option S)
    (st : S) : option S :=
  launch_from kernel 0 (Z.to_nat dim) st.

End WarpArray.

(** ** Collaborators that live outside [partition.py] *)

(** Modelled from the spec: [masked_indices] of [warp.fem.utils], the
    stream-compaction primitive, is defined outside [partition.py].  The
    spec describes it as turning a 0/1 mask of length N into the ascending
    list of the positions that are set, plus an inverse map of length N
    that holds, for every selected position, its rank in that list, and an
    undefined or sentinel slot elsewhere.  [missing_index] is the content
    of those slots; [pos] is the global index of the head of [mask] and
    [count] the number of positions selected before it. *)
Fixpoint masked_indices_from (missing_index : Z) (pos count : Z)
    (mask : list Z) : list Z * list Z :=
  match mask with
  | [] => ([], [])
  | m :: rest =>
      if decide (m = 0) then
        let r := masked_indices_from missing_index (pos + 1) count rest in
        (r.1, missing_index :: r.2)
      else
        let r := masked_indices_from missing_index (pos + 1) (count + 1) rest in
        (pos :: r.1, count :: r.2)
  end.

(** Modelled from the spec: [masked_indices(mask)] of [warp.fem.utils],
    the pair of the ascending selected positions and the inverse map. *)
Definition masked_indices (missing_index : Z) (mask : list Z)
    : list Z * list Z :=
  masked_indices_from missing_index 0 0 mask.

(** The part of the [Geometry] class (module [.geometry], outside
    [partition.py]) that the partitions consume.  The argument structures
    are opaque types of the geometry; the [device] arguments are dropped. *)
Module Geometry.

Record t : Type := {
  name : string;
  cell_count : Z;
  side_count : Z;
  boundary_side_count : Z;
  SideArg : Type;
  side_arg_value : SideArg;
  side_inner_cell_index : SideArg -> Z -> Z;
  side_outer_cell_index : SideArg -> Z -> Z;
  SideIndexArg : Type;
  side_index_arg_value : SideIndexArg;
  boundary_side_index : SideIndexArg -> Z -> Z
}.

(** What every geometry guarantees: counts are not negative and the two
    neighbours of each side are cells of the geometry. *)
Record wf (geo : t) : Prop := {
  wf_cell_count : 0 <= cell_count geo;
  wf_side_count : 0 <= side_count geo;
  wf_inner : forall s, 0 <= s < side_count geo ->
    0 <= side_inner_cell_index geo (side_arg_value geo) s < cell_count geo;
  wf_outer : forall s, 0 <= s < side_count geo ->
    0 <= side_outer_cell_index geo (side_arg_value geo) s < cell_count geo
}.

End Geometry.

(** ** [class WholeGeometryPartition] *)

Module WholeGeometryPartition.

(** [@wp.struct class CellArg: pass] *)
Record CellArg : Type := Build_CellArg {}.

(** [@wp.func _identity_element_index(args: Any, idx: ElementIndex)] *)
Definition _identity_element_index {Args : Type} (args : Args) (idx : Z) : Z :=
  idx.

(** The attributes that [__init__] sets on the instance. *)
Record t : Type := {
  geometry : Geometry.t;
  SideArg : Type;
  side_arg_value : SideArg;
  cell_index : CellArg -> Z -> Z;
  partition_cell_index : CellArg -> Z -> Z;
  side_index : SideArg -> Z -> Z;
  boundary_side_index : SideArg -> Z -> Z;
  frontier_side_index : SideArg -> Z -> Z
}.

Definition __init__ (geometry : Geometry.t) : t := {|
  geometry := geometry;
  SideArg := Geometry.SideIndexArg geometry;
  side_arg_value := Geometry.side_index_arg_value geometry;
  cell_index := _identity_element_index;
  partition_cell_index := _identity_element_index;
  side_index := _identity_element_index;
  boundary_side_index := Geometry.boundary_side_index geometry;
  frontier_side_index := _identity_element_index
|}.

Definition cell_count (self : t) : Z := Geometry.cell_count (geometry self).
Definition side_count (self : t) : Z := Geometry.side_count (geometry self).
Definition boundary_side_count (self : t) : Z :=
  Geometry.boundary_side_count (geometry self).
Definition frontier_side_count (self : t) : Z := 0.

Definition cell_arg_value (self : t) : CellArg := Build_CellArg.

End WholeGeometryPartition.

(** ** [class CellBasedGeometryPartition] *)

Module CellBasedGeometryPartition.

(** [@wp.struct class SideArg] *)
Module SideArg.
Record t : Type := {
  partition_side_indices : list Z;
  boundary_side_indices : list Z;
  frontier_side_indices : list Z
}.
End SideArg.

Record t : Type := {
  geometry : Geometry.t;
  _partition_side_indices : list Z;
  _boundary_side_indices : list Z;
  _frontier_side_indices : list Z
}.

Definition side_count (self : t) : Z :=
  WarpArray.shape0 (_partition_side_indices self).
Definition boundary_side_count (self : t) : Z :=
  WarpArray.shape0 (_boundary_side_indices self).
Definition frontier_side_count (self : t) : Z :=
  WarpArray.shape0 (_frontier_side_indices self).

Definition side_arg_value (self : t) : SideArg.t := {|
  SideArg.partition_side_indices := _partition_side_indices self;
  SideArg.boundary_side_indices := _boundary_side_indices self;
  SideArg.frontier_side_indices := _frontier_side_indices self
|}.

Definition side_index (args : SideArg.t) (partition_side_index : Z)
    : option Z :=
  WarpArray.load (SideArg.partition_side_indices args) partition_side_index.

Definition boundary_side_index (args : SideArg.t) (boundary_side_index : Z)
    : option Z :=
  WarpArray.load (SideArg.boundary_side_indices args) boundary_side_index.

Definition frontier_side_index (args : SideArg.t) (frontier_side_index : Z)
    : option Z :=
  WarpArray.load (SideArg.frontier_side_indices args) frontier_side_index.

(** The three arrays that the kernel [count_side_fn] writes. *)
Record SideMasks : Type := {
  partition_side_mask : list Z;
  boundary_side_mask : list Z;
  frontier_side_mask : list Z
}.

Section Engine.

Context {CellArgT : Type}.
Variable geometry_ : Geometry.t.
Variable cell_arg_value : CellArgT.
Variable cell_inclusion_test_func : CellArgT -> Z -> option bool.
Variable missing_index : Z.

(** The kernel body, for the thread [tid = wp.tid()]. *)
Definition count_side_fn (tid : Z) (masks : SideMasks) : option SideMasks :=
  let geo_arg := Geometry.side_arg_value geometry_ in
  let side_index := tid in
  let inner_cell_index :=
    Geometry.side_inner_cell_index geometry_ geo_arg side_index in
  let outer_cell_index :=
    Geometry.side_outer_cell_index geometry_ geo_arg side_index in
  inner_in ← cell_inclusion_test_func cell_arg_value inner_cell_index;
  outer_in ← cell_inclusion_test_func cell_arg_value outer_cell_index;
  masks ←
    (if inner_in : bool then
       pm ← WarpArray.store (partition_side_mask masks) side_index 1;
       bm ←
         (if inner_cell_index =? outer_cell_index then
            WarpArray.store (boundary_side_mask masks) side_index 1
          else Some (boundary_side_mask masks));
       Some {| partition_side_mask := pm;
               boundary_side_mask := bm;
               frontier_side_mask := frontier_side_mask masks |}
     else Some masks);
  if negb (eqb inner_in outer_in) then
    fm ← WarpArray.store (frontier_side_mask masks) side_index 1;
    Some {| partition_side_mask := partition_side_mask masks;
            boundary_side_mask := boundary_side_mask masks;
            frontier_side_mask := fm |}
  else Some masks.

(** The three zeroed masks and the launch over all sides. *)
Definition classify_sides : option SideMasks :=
  partition_side_mask ← WarpArray.zeros (Geometry.side_count geometry_);
  boundary_side_mask ← WarpArray.zeros (Geometry.side_count geometry_);
  frontier_side_mask ← WarpArray.zeros (Geometry.side_count geometry_);
  WarpArray.launch (WarpArray.shape0 partition_side_mask) count_side_fn
    {| partition_side_mask := partition_side_mask;
       boundary_side_mask := boundary_side_mask;
       frontier_side_mask := frontier_side_mask |}.

Definition compute_side_indices_from_cells : option t :=
  masks ← classify_sides;
  Some {| geometry := geometry_;
          _partition_side_indices :=
            (masked_indices missing_index (partition_side_mask masks)).1;
          _boundary_side_indices :=
            (masked_indices missing_index (boundary_side_mask masks)).1;
          _frontier_side_indices :=
            (masked_indices missing_index (frontier_side_mask masks)).1 |}.

End Engine.

End CellBasedGeometryPartition.

(** ** [class LinearGeometryPartition] *)

Module LinearGeometryPartition.

(** [@wp.struct class CellArg]: two kernel integers. *)
Module CellArg.
Record t : Type := { cell_begin : Z; cell_end : Z }.

Definition wf (args : t) : Prop :=
  Int32.in_range (cell_begin args) /\ Int32.in_range (cell_end args).
End CellArg.

Record t : Type := {
  base : CellBasedGeometryPartition.t;
  cell_begin : Z;
  cell_end : Z
}.

Definition cell_count (self : t) : Z := cell_end self - cell_begin self.

(** Inherited from [CellBasedGeometryPartition]. *)
Definition side_count (self : t) : Z :=
  CellBasedGeometryPartition.side_count (base self).
Definition boundary_side_count (self : t) : Z :=
  CellBasedGeometryPartition.boundary_side_count (base self).
Definition frontier_side_count (self : t) : Z :=
  CellBasedGeometryPartition.frontier_side_count (base self).

(** The two fields of the struct are 32-bit integers: the copy is exact
    for the values that [CellArg.wf] admits, and it is for those that the
    properties of the kernel functions are stated. *)
Definition cell_arg_value (self : t) : CellArg.t := {|
  CellArg.cell_begin := cell_begin self;
  CellArg.cell_end := cell_end self
|}.

Definition cell_index (args : CellArg.t) (partition_cell_index : Z) : Z :=
  Int32.add (CellArg.cell_begin args) partition_cell_index.

(** [NULL_ELEMENT_INDEX] is a constant of [warp.fem.types], defined outside
    [partition.py]; it is a parameter here. *)
Definition partition_cell_index (NULL_ELEMENT_INDEX : Z)
    (args : CellArg.t) (cell_index : Z) : Z :=
  if cell_index >? CellArg.cell_end args then NULL_ELEMENT_INDEX
  else
    let partition_cell_index := Int32.sub cell_index (CellArg.cell_begin args) in
    if partition_cell_index <? 0 then NULL_ELEMENT_INDEX
    else partition_cell_index.

Definition _cell_inclusion_test (arg : CellArg.t) (cell_index : Z) : bool :=
  (cell_index >=? CellArg.cell_begin arg) && (cell_index <? CellArg.cell_end arg).

(** The range of [__init__]; [//] is the floor division of Python, which
    [Z.div] is, and it raises on a zero divisor. *)
Definition cells_per_partition (total_cell_count partition_count : Z) : Z :=
  (total_cell_count + partition_count - 1) / partition_count.

Definition cell_range (total_cell_count partition_rank partition_count : Z)
    : option (Z * Z) :=
  if partition_count =? 0 then None
  else
    let cells_per_partition :=
      cells_per_partition total_cell_count partition_count in
    let cell_begin := cells_per_partition * partition_rank in
    let cell_end := Z.min (cell_begin + cells_per_partition) total_cell_count in
    Some (cell_begin, cell_end).

Definition __init__ (missing_index : Z) (geometry : Geometry.t)
    (partition_rank partition_count : Z) : option t :=
  let total_cell_count := Geometry.cell_count geometry in
  r ← cell_range total_cell_count partition_rank partition_count;
  let arg := {| CellArg.cell_begin := r.1; CellArg.cell_end := r.2 |} in
  base ← CellBasedGeometryPartition.compute_side_indices_from_cells
            geometry arg (fun a c => Some (_cell_inclusion_test a c))
            missing_index;
  Some {| base := base; cell_begin := r.1; cell_end := r.2 |}.

End LinearGeometryPartition.

(** ** [class ExplicitGeometryPartition] *)

Module ExplicitGeometryPartition.

(** [@wp.struct class CellArg]: two borrowed arrays. *)
Module CellArg.
Record t : Type := { cell_index : list Z; partition_cell_index : list Z }.
End CellArg.

Record t : Type := {
  base : CellBasedGeometryPartition.t;
  _cell_mask : list Z;
  _cells : list Z;
  _partition_cells : list Z
}.

Definition _cell_inclusion_test (mask : list Z) (cell_index : Z)
    : option bool :=
  m ← WarpArray.load mask cell_index; Some (m >? 0).

Definition __init__ (missing_index : Z) (geometry : Geometry.t)
    (cell_mask : list Z) : option t :=
  let r := masked_indices missing_index cell_mask in
  base ← CellBasedGeometryPartition.compute_side_indices_from_cells
            geometry cell_mask _cell_inclusion_test missing_index;
  Some {| base := base; _cell_mask := cell_mask;
          _cells := r.1; _partition_cells := r.2 |}.

Definition cell_count (self : t) : Z := WarpArray.shape0 (_cells self).

(** Inherited from [CellBasedGeometryPartition]. *)
Definition side_count (self : t) : Z :=
  CellBasedGeometryPartition.side_count (base self).
Definition boundary_side_count (self : t) : Z :=
  CellBasedGeometryPartition.boundary_side_count (base self).
Definition frontier_side_count (self : t) : Z :=
  CellBasedGeometryPartition.frontier_side_count (base self).

Definition cell_arg_value (self : t) : CellArg.t := {|
  CellArg.cell_index := _cells self;
  CellArg.partition_cell_index := _partition_cells self
|}.

Definition cell_index (args : CellArg.t) (partition_cell_index : Z)
    : option Z :=
  WarpArray.load (CellArg.cell_index args) partition_cell_index.

Definition partition_cell_index (args : CellArg.t) (cell_index : Z)
    : option Z :=
  WarpArray.load (CellArg.partition_cell_index args) cell_index.

End ExplicitGeometryPartition.

(** ** The class hierarchy and [WholeGeometryPartition.__eq__] *)

Inductive GeometryPartition : Type :=
  | Whole (p : WholeGeometryPartition.t)
  | Linear (p : LinearGeometryPartition.t)
  | Explicit (p : ExplicitGeometryPartition.t).

(** [self.geometry], the attribute of the base class. *)
Definition GeometryPartition_geometry (p : GeometryPartition) : Geometry.t :=
  match p with
  | Whole w => WholeGeometryPartition.geometry w
  | Linear l =>
      CellBasedGeometryPartition.geometry (LinearGeometryPartition.base l)
  | Explicit e =>
      CellBasedGeometryPartition.geometry (ExplicitGeometryPartition.base e)
  end.

Definition isinstance_WholeGeometryPartition (p : GeometryPartition) : bool :=
  match p with Whole _ => true | _ => false end.

(** [Geometry_eq] is the [==] of the geometry objects, which the [Geometry]
    class decides. *)
Definition WholeGeometryPartition__eq__
    (Geometry_eq : Geometry.t -> Geometry.t -> bool)
    (self : WholeGeometryPartition.t) (other : GeometryPartition) : bool :=
  isinstance_WholeGeometryPartition other
  && Geometry_eq (WholeGeometryPartition.geometry self)
       (GeometryPartition_geometry other).

(** ** Concrete meshes: the chain of [n] cells

    Cells [0 .. n-1] on a line; side [s] lies between cell [s-1] and cell
    [s]; the open ends are the sides [0] and [n], whose inner and outer
    cell coincide, and they are the two boundary sides. *)

Definition chain (n : Z) : Geometry.t := {|
  Geometry.name := "chain";
  Geometry.cell_count := n;
  Geometry.side_count := n + 1;
  Geometry.boundary_side_count := 2;
  Geometry.SideArg := unit;
  Geometry.side_arg_value := tt;
  Geometry.side_inner_cell_index := fun _ s => if s =? 0 then 0 else s - 1;
  Geometry.side_outer_cell_index := fun _ s => if s =? n then n - 1 else s;
  Geometry.SideIndexArg := unit;
  Geometry.side_index_arg_value := tt;
  Geometry.boundary_side_index := fun _ i => if i =? 0 then 0 else n
|}.

(** The second of two linear partitions of [chain 4], as [__init__] leaves
    it (see [rank1_of_2_init]). *)
Definition rank1_of_2 : LinearGeometryPartition.t := {|
  LinearGeometryPartition.base := {|
    CellBasedGeometryPartition.geometry := chain 4;
    CellBasedGeometryPartition._partition_side_indices := [3; 4];
    CellBasedGeometryPartition._boundary_side_indices := [4];
    CellBasedGeometryPartition._frontier_side_indices := [2] |};
  LinearGeometryPartition.cell_begin := 2;
  LinearGeometryPartition.cell_end := 4
|}.

(** The explicit partition of [chain 4] that owns the cells 0 and 2, as
    [__init__] leaves it with the sentinel -1 (see [alternate_cells_init]). *)
Definition alternate_cells : ExplicitGeometryPartition.t := {|
  ExplicitGeometryPartition.base := {|
    CellBasedGeometryPartition.geometry := chain 4;
    CellBasedGeometryPartition._partition_side_indices := [0; 1; 3];
    CellBasedGeometryPartition._boundary_side_indices := [0];
    CellBasedGeometryPartition._frontier_side_indices := [1; 2; 3] |};
  ExplicitGeometryPartition._cell_mask := [1; 0; 1; 0];
  ExplicitGeometryPartition._cells := [0; 2];
  ExplicitGeometryPartition._partition_cells := [0; -1; 1; -1]
|}.

(** ** Closed form of the side classification

    [mark c s mask] is the conditional store [if c: mask[s] = 1] of the
    kernel, and [mark_from c s count mask] the effect on one mask of the
    threads [s .. s+count-1] when thread [t] stores under [c t]. *)

Definition mark (c : bool) (s : Z) (mask : list Z) : list Z :=
  if c then <[Z.to_nat s := 1]> mask else mask.

Fixpoint mark_from (c : Z -> bool) (s : Z) (count : nat) (mask : list Z)
    : list Z :=
  match count with
  | O => mask
  | S n => mark_from c (s + 1) n (mark (c s) s mask)
  end.

Section SideTests.

Context {CellArgT : Type}.
Variable geometry_ : Geometry.t.
Variable cell_arg_value : CellArgT.
Variable cell_inclusion_test_func : CellArgT -> Z -> option bool.

(** The two inclusion tests of thread [s], where they are defined. *)
Definition inner_in (s : Z) : bool :=
  default false
    (cell_inclusion_test_func cell_arg_value
       (Geometry.side_inner_cell_index geometry_
          (Geometry.side_arg_value geometry_) s)).

Definition outer_in (s : Z) : bool :=
  default false
    (cell_inclusion_test_func cell_arg_value
       (Geometry.side_outer_cell_index geometry_
          (Geometry.side_arg_value geometry_) s)).

Definition same_cell (s : Z) : bool :=
  Geometry.side_inner_cell_index geometry_ (Geometry.side_arg_value geometry_) s
  =? Geometry.side_outer_cell_index geometry_ (Geometry.side_arg_value geometry_) s.

(** The inclusion test answers for both neighbours of the side [s]. *)
Definition tests_defined (s : Z) : Prop :=
  is_Some
    (cell_inclusion_test_func cell_arg_value
       (Geometry.side_inner_cell_index geometry_
          (Geometry.side_arg_value geometry_) s))
  /\ is_Some
    (cell_inclusion_test_func cell_arg_value
       (Geometry.side_outer_cell_index geometry_
          (Geometry.side_arg_value geometry_) s)).

End SideTests.

(** The invariant of the kernel that relates two of its masks: a slot set
    in the boundary mask is set in the partition mask. *)
Definition boundary_within_partition
    (masks : CellBasedGeometryPartition.SideMasks) : Prop :=
  forall (j : nat) (v : Z),
    CellBasedGeometryPartition.boundary_side_mask masks !! j = Some v ->
    v <> 0 ->
    exists w,
      CellBasedGeometryPartition.partition_side_mask masks !! j = Some w
      /\ w <> 0.

(** The caller contract of a mask: every entry is 0 or 1. *)
Definition is_mask (mask : list Z) : Prop :=
  Forall (fun m => m = 0 \/ m = 1) mask.

(** ** [GeometryPartition.name] and [__str__]

    [self.__class__.__name__] for the three concrete classes, and the
    f-string [f"{self.geometry.name}_{self.__class__.__name__}"]. *)

Definition GeometryPartition__class____name__ (p : GeometryPartition)
    : string :=
  match p with
  | Whole _ => "WholeGeometryPartition"
  | Linear _ => "LinearGeometryPartition"
  | Explicit _ => "ExplicitGeometryPartition"
  end.

Definition GeometryPartition_name (p : GeometryPartition) : string :=
  String.append (Geometry.name (GeometryPartition_geometry p))
    (String.append "_" (GeometryPartition__class____name__ p)).

Definition GeometryPartition__str__ (p : GeometryPartition) : string :=
  GeometryPartition_name p.

(** ** One conditional store of the kernel

    [if c: mask[s] = 1], with the bounds of the store. *)

Definition store_if (c : bool) (mask : list Z) (s : Z) : option (list Z) :=
  if c then WarpArray.store mask s 1 else Some mask.

(** [mask'] is [mask] except, at most, for a 1 in slot [s]. *)
Definition only_marked (s : Z) (mask mask' : list Z) : Prop :=
  length mask' = length mask
  /\ forall j : nat,
       mask' !! j = mask !! j \/ (j = Z.to_nat s /\ mask' !! j = Some 1).

(** The three masks of a kernel state, when all three stores went through. *)
Definition side_masks (pm bm fm : option (list Z))
    : option CellBasedGeometryPartition.SideMasks :=
  match pm, bm, fm with
  | Some pm, Some bm, Some fm =>
      Some {| CellBasedGeometryPartition.partition_side_mask := pm;
              CellBasedGeometryPartition.boundary_side_mask := bm;
              CellBasedGeometryPartition.frontier_side_mask := fm |}
  | _, _, _ => None
  end.

(** The boundary sides that the geometry itself enumerates, through
    [boundary_side_count()] and [boundary_side_index], are the sides whose
    inner and outer cell coincide, each listed once. *)
Definition boundary_sides_consistent (geo : Geometry.t) : Prop :=
  0 <= Geometry.boundary_side_count geo
  /\ (forall i j,
        0 <= i < Geometry.boundary_side_count geo ->
        0 <= j < Geometry.boundary_side_count geo ->
        Geometry.boundary_side_index geo (Geometry.side_index_arg_value geo) i
        = Geometry.boundary_side_index geo (Geometry.side_index_arg_value geo) j ->
        i = j)
  /\ (forall s,
        (exists i,
           0 <= i < Geometry.boundary_side_count geo
           /\ Geometry.boundary_side_index geo
                (Geometry.side_index_arg_value geo) i = s)
        <-> 0 <= s < Geometry.side_count geo
            /\ Geometry.side_inner_cell_index geo (Geometry.side_arg_value geo) s
               = Geometry.side_outer_cell_index geo
                   (Geometry.side_arg_value geo) s).

(** * Properties *)

(** ** 32-bit arithmetic *)

Lemma wrap_in_range (z : Z) : Int32.in_range z -> Int32.wrap z = z.
Proof.
  unfold Int32.in_range, Int32.min_signed, Int32.max_signed, Int32.wrap.
  intros H. rewrite Z.mod_small; lia.
Qed.

Lemma rank1_of_2_init (missing_index : Z) :
  LinearGeometryPartition.__init__ missing_index (chain 4) 1 2 = Some rank1_of_2.
Proof. reflexivity. Qed.

Lemma alternate_cells_init :
  ExplicitGeometryPartition.__init__ (-1) (chain 4) [1; 0; 1; 0]
  = Some alternate_cells.
Proof. reflexivity. Qed.

(** ** The whole partition *)

Section Whole.

Import WholeGeometryPartition.

(** C2, as the code has it: on a whole partition [cell_index],
    [partition_cell_index], [side_index] and [frontier_side_index] return
    the index they are given, and [boundary_side_index] is the
    [boundary_side_index] of the geometry. *)
Theorem whole_mappings (geo : Geometry.t) (c : CellArg)
    (a : Geometry.SideIndexArg geo) (idx : Z) :
  cell_index (__init__ geo) c idx = idx
  /\ partition_cell_index (__init__ geo) c idx = idx
  /\ side_index (__init__ geo) a idx = idx
  /\ frontier_side_index (__init__ geo) a idx = idx
  /\ boundary_side_index (__init__ geo) a idx
     = Geometry.boundary_side_index geo a idx.
Proof. repeat split. Qed.

(** C2 fails as stated: on the chain of four cells the second boundary
    side is side 4, so [boundary_side_index] of the whole partition sends
    index 1 to 4. *)
Lemma whole_boundary_side_index_not_identity :
  boundary_side_index (__init__ (chain 4))
    (side_arg_value (__init__ (chain 4))) 1 <> 1.
Proof. discriminate. Qed.

(** C9: [frontier_side_count()] of a whole partition is 0, whatever the
    geometry. *)
Theorem whole_frontier_side_count (self : t) :
  frontier_side_count self = 0.
Proof. reflexivity. Qed.

(** C8: comparing a whole partition with another whole partition gives
    exactly the result of comparing their geometries: equal when the
    geometries are equal, unequal when they are not.  Nothing but the
    [geometry] attribute of the two instances is read. *)
Theorem whole_eq_geometry (Geometry_eq : Geometry.t -> Geometry.t -> bool)
    (p q : t) :
  WholeGeometryPartition__eq__ Geometry_eq p (Whole q)
  = Geometry_eq (geometry p) (geometry q).
Proof. reflexivity. Qed.

(** X22: a whole partition is never equal to a partition of another
    class. *)
Lemma whole_eq_other_class (Geometry_eq : Geometry.t -> Geometry.t -> bool)
    (p : t) (other : GeometryPartition) :
  isinstance_WholeGeometryPartition other = false ->
  WholeGeometryPartition__eq__ Geometry_eq p other = false.
Proof. unfold WholeGeometryPartition__eq__. intros ->. reflexivity. Qed.

End Whole.

(** ** The linear partition *)

Section Linear.

Import LinearGeometryPartition.

Variable NULL_ELEMENT_INDEX : Z.

Lemma sub_in_range (a b : Z) :
  Int32.in_range (a - b) -> Int32.sub a b = a - b.
Proof. apply wrap_in_range. Qed.

(** What [partition_cell_index] computes when the subtraction does not
    wrap: the test on the upper bound is [cell_index > cell_end]. *)
Lemma partition_cell_index_spec (args : CellArg.t) (g : Z) :
  Int32.in_range (g - CellArg.cell_begin args) ->
  partition_cell_index NULL_ELEMENT_INDEX args g
  = if decide (g < CellArg.cell_begin args \/ g > CellArg.cell_end args)
    then NULL_ELEMENT_INDEX else g - CellArg.cell_begin args.
Proof.
  intros Hsub. unfold partition_cell_index. rewrite sub_in_range by done.
  destruct (Z.gtb_spec g (CellArg.cell_end args)).
  - rewrite decide_True by lia. reflexivity.
  - destruct (Z.ltb_spec (g - CellArg.cell_begin args) 0).
    + rewrite decide_True by lia. reflexivity.
    + rewrite decide_False by lia. reflexivity.
Qed.

(** C1, at the input where the code leaves the claim: with the range
    [0, 2) the global index 2, which is [cell_end] and which the
    inclusion test rejects, is mapped to the local index 2 and not to
    [NULL_ELEMENT_INDEX]. *)
Theorem partition_cell_index_at_cell_end :
  let args := {| CellArg.cell_begin := 0; CellArg.cell_end := 2 |} in
  partition_cell_index NULL_ELEMENT_INDEX args 2 = 2
  /\ _cell_inclusion_test args 2 = false.
Proof. split; reflexivity. Qed.

(** The same for every non-empty range: [cell_end] is mapped to
    [cell_count()], one past the last local index. *)
Lemma partition_cell_index_cell_end (args : CellArg.t) :
  CellArg.wf args -> 0 <= CellArg.cell_begin args <= CellArg.cell_end args ->
  partition_cell_index NULL_ELEMENT_INDEX args (CellArg.cell_end args)
  = CellArg.cell_end args - CellArg.cell_begin args.
Proof.
  unfold CellArg.wf, Int32.in_range, Int32.min_signed, Int32.max_signed.
  intros Hwf Hbe. rewrite partition_cell_index_spec.
  - rewrite decide_False by lia. reflexivity.
  - unfold Int32.in_range, Int32.min_signed, Int32.max_signed. lia.
Qed.

(** C5: on a linear partition, [partition_cell_index] undoes
    [cell_index] on every local index below [cell_count()]. *)
Theorem linear_roundtrip (self : t) (i : Z) :
  CellArg.wf (cell_arg_value self) -> Int32.in_range i ->
  0 <= i < cell_count self ->
  partition_cell_index NULL_ELEMENT_INDEX (cell_arg_value self)
    (cell_index (cell_arg_value self) i) = i.
Proof.
  unfold CellArg.wf, cell_count, cell_index, partition_cell_index, Int32.add,
    Int32.sub. cbn [cell_arg_value CellArg.cell_begin CellArg.cell_end].
  unfold Int32.in_range, Int32.min_signed, Int32.max_signed.
  intros [Hb He] Hi Hlt.
  rewrite (wrap_in_range (cell_begin self + i))
    by (unfold Int32.in_range, Int32.min_signed, Int32.max_signed; lia).
  replace (cell_begin self + i - cell_begin self) with i by lia.
  rewrite (wrap_in_range i)
    by (unfold Int32.in_range, Int32.min_signed, Int32.max_signed; lia).
  destruct (Z.gtb_spec (cell_begin self + i) (cell_end self)); [lia |].
  destruct (Z.ltb_spec i 0); [lia | reflexivity].
Qed.

End Linear.

Lemma linear_roundtrip_witness :
  LinearGeometryPartition.partition_cell_index (-1)
    (LinearGeometryPartition.cell_arg_value rank1_of_2)
    (LinearGeometryPartition.cell_index
       (LinearGeometryPartition.cell_arg_value rank1_of_2) 1) = 1.
Proof.
  apply (linear_roundtrip (-1) rank1_of_2 1).
  - split; vm_compute; split; discriminate.
  - vm_compute; split; discriminate.
  - vm_compute; split; [discriminate | reflexivity].
Defined.

(** ** The ranges of the linear partitions *)

Section LinearRanges.

Import LinearGeometryPartition.

Variables C P : Z.
Hypothesis C_nonneg : 0 <= C.
Hypothesis P_pos : 1 <= P.

Local Abbreviation chunk := (cells_per_partition C P).

Lemma cell_range_eq (r : Z) :
  cell_range C r P = Some (chunk * r, Z.min (chunk * r + chunk) C).
Proof.
  unfold cell_range. destruct (Z.eqb_spec P 0); [lia | reflexivity].
Qed.

Lemma chunk_covers : 0 <= chunk /\ C <= chunk * P.
Proof.
  unfold cells_per_partition.
  pose proof (Z_div_mod_eq_full (C + P - 1) P) as Hdm.
  pose proof (Z.mod_pos_bound (C + P - 1) P ltac:(lia)) as Hm.
  split; [apply Z.div_pos; lia | nia].
Qed.

(** No gaps: every cell lies in the range of some rank below [P]. *)
Lemma cell_range_cover (g : Z) :
  0 <= g < C ->
  exists r b e, 0 <= r < P /\ cell_range C r P = Some (b, e) /\ b <= g < e.
Proof.
  intros Hg. destruct chunk_covers as [Hc0 HcP].
  assert (0 < chunk) as Hc by nia.
  exists (g / chunk), (chunk * (g / chunk)),
    (Z.min (chunk * (g / chunk) + chunk) C).
  pose proof (Z_div_mod_eq_full g chunk) as Hdm.
  pose proof (Z.mod_pos_bound g chunk Hc) as Hm.
  assert (0 <= g / chunk) by (apply Z.div_pos; lia).
  split; [| split; [apply cell_range_eq | lia]].
  split; [lia |].
  destruct (Z_lt_ge_dec (g / chunk) P) as [|Hge]; [done |].
  assert (chunk * P <= chunk * (g / chunk)) by nia. lia.
Qed.

(** No overlaps: a cell lies in the range of at most one rank. *)
Lemma cell_range_disjoint (r1 r2 b1 e1 b2 e2 g : Z) :
  cell_range C r1 P = Some (b1, e1) -> cell_range C r2 P = Some (b2, e2) ->
  b1 <= g < e1 -> b2 <= g < e2 -> r1 = r2.
Proof.
  rewrite !cell_range_eq. intros [= <- <-] [= <- <-] H1 H2.
  destruct chunk_covers as [Hc0 _]. nia.
Qed.

(** X2: nothing but cells: the range of a rank lies within [0, C). *)
Lemma cell_range_within (r b e g : Z) :
  0 <= r -> cell_range C r P = Some (b, e) -> b <= g < e -> 0 <= g < C.
Proof.
  rewrite cell_range_eq. intros Hr [= <- <-] Hg.
  destruct chunk_covers as [Hc0 _]. nia.
Qed.

(** X3: the range of a rank that begins beyond the last cell holds no cell,
    but its [cell_end - cell_begin] is negative. *)
Lemma cell_range_beyond (r b e : Z) :
  cell_range C r P = Some (b, e) -> C < b -> e - b = C - b /\ e - b < 0.
Proof.
  rewrite cell_range_eq. intros [= <- <-] Hb.
  destruct chunk_covers as [Hc0 _]. lia.
Qed.

End LinearRanges.

(** C3, at the input where the code leaves the claim: five cells in four
    partitions give a chunk of two cells; the last rank begins at cell 6,
    ends at cell 5 and has a [cell_count()] of -1. *)
Theorem linear_cell_count_beyond_cells (missing_index : Z) :
  (p ← LinearGeometryPartition.__init__ missing_index (chain 5) 3 4;
   Some (LinearGeometryPartition.cell_begin p,
         LinearGeometryPartition.cell_end p,
         LinearGeometryPartition.cell_count p))
  = Some (6, 5, -1).
Proof. reflexivity. Qed.

(** ** Stream compaction *)

Section Compaction.

Variable missing_index : Z.

Local Abbreviation compact := (masked_indices_from missing_index).

Lemma masked_indices_from_inverse_length (mask : list Z) (pos count : Z) :
  length (compact pos count mask).2 = length mask.
Proof.
  revert pos count. induction mask as [|m rest IH]; intros pos count;
    [done |].
  cbn [masked_indices_from]. case_decide; cbn; by rewrite IH.
Qed.

(** The selected indices are the positions of the non-zero entries. *)
Lemma masked_indices_from_elem (mask : list Z) (pos count x : Z) :
  x ∈ (compact pos count mask).1 <->
  exists (n : nat) (v : Z),
    mask !! n = Some v /\ v <> 0 /\ x = pos + Z.of_nat n.
Proof.
  revert pos count. induction mask as [|m rest IH]; intros pos count.
  - cbn. split; [by intros ?%not_elem_of_nil | by intros (n & v & ? & _)].
  - cbn [masked_indices_from]. case_decide as Hm; cbn [fst].
    + rewrite IH. split.
      * intros (n & v & Hn & Hv & ->). exists (S n), v. split_and!; [done.. | lia].
      * intros ([|n] & v & Hn & Hv & ->); [cbn in Hn; congruence |].
        exists n, v. split_and!; [done.. | lia].
    + rewrite elem_of_cons, IH. split.
      * intros [-> | (n & v & Hn & Hv & ->)].
        -- exists O, m. split_and!; [done.. | lia].
        -- exists (S n), v. split_and!; [done.. | lia].
      * intros ([|n] & v & Hn & Hv & ->); [left; lia | right].
        exists n, v. split_and!; [done.. | lia].
Qed.

(** The inverse map sends the [i]-th selected index back to [i]. *)
Lemma masked_indices_from_inverse (mask : list Z) (pos count : Z)
    (i : nat) (g : Z) :
  (compact pos count mask).1 !! i = Some g ->
  pos <= g /\
  (compact pos count mask).2 !! Z.to_nat (g - pos)
  = Some (count + Z.of_nat i).
Proof.
  revert pos count i. induction mask as [|m rest IH]; intros pos count i;
    [done |].
  cbn [masked_indices_from]. case_decide as Hm; cbn [fst snd].
  - intros [Hle Hinv]%IH. split; [lia |].
    replace (Z.to_nat (g - pos)) with (S (Z.to_nat (g - (pos + 1)))) by lia.
    done.
  - destruct i as [|i]; cbn [lookup list_lookup].
    + intros [= <-]. split; [lia |].
      rewrite Z.sub_diag, Z.add_0_r. reflexivity.
    + intros [Hle Hinv]%IH. split; [lia |].
      replace (Z.to_nat (g - pos)) with (S (Z.to_nat (g - (pos + 1)))) by lia.
      change ((compact (pos + 1) (count + 1) rest).2
                !! Z.to_nat (g - (pos + 1)) = Some (count + Z.of_nat (S i))).
      rewrite Hinv. f_equal. lia.
Qed.

(** A mask with no entry set selects nothing. *)
Lemma masked_indices_from_zeros (mask : list Z) (pos count : Z) :
  Forall (fun m => m = 0) mask -> (compact pos count mask).1 = [].
Proof.
  intros Hz. revert pos count.
  induction Hz as [|m rest -> _ IH]; intros pos count; [done |].
  cbn [masked_indices_from]. rewrite decide_True by done. apply IH.
Qed.

(** A mask with every entry set selects every position. *)
Lemma masked_indices_from_ones_length (mask : list Z) (pos count : Z) :
  Forall (fun m => m = 1) mask ->
  length (compact pos count mask).1 = length mask.
Proof.
  intros Ho. revert pos count.
  induction Ho as [|m rest -> _ IH]; intros pos count; [done |].
  cbn [masked_indices_from]. rewrite decide_False by done.
  cbn. by rewrite IH.
Qed.

(** The selected indices come in strictly ascending order. *)
Lemma masked_indices_from_ascending (mask : list Z) (pos count : Z) :
  StronglySorted Z.lt (compact pos count mask).1.
Proof.
  revert pos count. induction mask as [|m rest IH]; intros pos count;
    [constructor |].
  cbn [masked_indices_from]. case_decide; cbn [fst]; [apply IH |].
  constructor; [apply IH |].
  apply list.Forall_forall.
  intros x (n & v & _ & _ & ->)%masked_indices_from_elem.
  lia.
Qed.

End Compaction.

(** ** Conditional stores *)

Lemma store_in_range (a : list Z) (i v : Z) :
  0 <= i < WarpArray.shape0 a ->
  WarpArray.store a i v = Some (<[Z.to_nat i := v]> a).
Proof. intros H. unfold WarpArray.store. by rewrite decide_True. Qed.

Lemma store_Some (a a' : list Z) (i v : Z) :
  WarpArray.store a i v = Some a' ->
  (Z.to_nat i < length a)%nat /\ a' = <[Z.to_nat i := v]> a.
Proof.
  unfold WarpArray.store, WarpArray.shape0. case_decide; [| done].
  intros [= <-]. split; [lia | done].
Qed.

Lemma load_lookup (a : list Z) (i : Z) :
  0 <= i -> WarpArray.load a i = a !! Z.to_nat i.
Proof. intros H. unfold WarpArray.load. by rewrite decide_True. Qed.

Lemma length_mark (c : bool) (s : Z) (mask : list Z) :
  length (mark c s mask) = length mask.
Proof. destruct c; [apply length_insert | done]. Qed.

Lemma length_mark_from (c : Z -> bool) (count : nat) (s : Z) (mask : list Z) :
  length (mark_from c s count mask) = length mask.
Proof.
  revert s mask. induction count as [|n IH]; intros s mask; [done |].
  cbn. by rewrite IH, length_mark.
Qed.

Lemma lookup_mark (c : bool) (s : Z) (mask : list Z) (j : nat) :
  (j < length mask)%nat ->
  mark c s mask !! j
  = if decide (j = Z.to_nat s /\ c = true) then Some 1 else mask !! j.
Proof.
  intros Hj. destruct c; cbn.
  - destruct (decide (j = Z.to_nat s)) as [-> | Hne].
    + rewrite decide_True by done. by apply list_lookup_insert_eq.
    + rewrite decide_False by tauto. by apply list_lookup_insert_ne.
  - rewrite decide_False by (intros [_ ?]; done). done.
Qed.

(** Thread [t] of [s .. s+count-1] leaves 1 in slot [t] when [c t] holds
    and touches no other slot. *)
Lemma lookup_mark_from (c : Z -> bool) (count : nat) (s : Z) (mask : list Z)
    (j : nat) :
  0 <= s -> (j < length mask)%nat ->
  mark_from c s count mask !! j
  = if decide (s <= Z.of_nat j < s + Z.of_nat count /\ c (Z.of_nat j) = true)
    then Some 1 else mask !! j.
Proof.
  revert s mask. induction count as [|n IH]; intros s mask Hs Hj.
  - cbn. rewrite decide_False by lia. done.
  - cbn [mark_from]. rewrite IH by (rewrite ?length_mark; lia).
    rewrite lookup_mark by done.
    destruct (c s) eqn:Hcs, (c (Z.of_nat j)) eqn:Hcj;
      repeat case_decide; try done; exfalso;
      destruct (decide (s = Z.of_nat j)) as [-> | Hne];
      repeat match goal with
             | H : _ /\ _ |- _ => destruct H
             | H : ~ (_ /\ _) |- _ => apply H; split
             end; congruence || lia.
Qed.

(** After all the threads, slot [j] of a zeroed mask holds 1 or 0 as [c j]
    says. *)
Lemma lookup_mark_from_zeros (c : Z -> bool) (n j : nat) :
  (j < n)%nat ->
  mark_from c 0 n (replicate n 0) !! j
  = Some (if c (Z.of_nat j) then 1 else 0).
Proof.
  intros Hj. rewrite lookup_mark_from by (rewrite ?length_replicate; lia).
  rewrite lookup_replicate_2 by done.
  destruct (c (Z.of_nat j)).
  - rewrite decide_True; [done | split; [lia | done]].
  - rewrite decide_False; [done | intros [_ ?]; done].
Qed.

(** ** The side classification *)

Section Classification.

Import CellBasedGeometryPartition.

Context {CellArgT : Type}.
Variable geo : Geometry.t.
Variable arg : CellArgT.
Variable test : CellArgT -> Z -> option bool.

Local Abbreviation inner s :=
  (Geometry.side_inner_cell_index geo (Geometry.side_arg_value geo) s).
Local Abbreviation outer s :=
  (Geometry.side_outer_cell_index geo (Geometry.side_arg_value geo) s).
Local Abbreviation kernel := (count_side_fn geo arg test).
Local Abbreviation innerIn := (inner_in geo arg test).
Local Abbreviation outerIn := (outer_in geo arg test).
Local Abbreviation boundaryIn :=
  (fun s => inner_in geo arg test s && same_cell geo s).
Local Abbreviation frontierIn :=
  (fun s => negb (eqb (inner_in geo arg test s) (outer_in geo arg test s))).

(** One thread: three conditional stores into its own slots. *)
Lemma count_side_fn_marks (tid : Z) (masks : SideMasks) :
  0 <= tid < WarpArray.shape0 (partition_side_mask masks) ->
  0 <= tid < WarpArray.shape0 (boundary_side_mask masks) ->
  0 <= tid < WarpArray.shape0 (frontier_side_mask masks) ->
  tests_defined geo arg test tid ->
  kernel tid masks
  = Some {|
      partition_side_mask := mark (innerIn tid) tid (partition_side_mask masks);
      boundary_side_mask := mark (boundaryIn tid) tid (boundary_side_mask masks);
      frontier_side_mask := mark (frontierIn tid) tid (frontier_side_mask masks)
    |}.
Proof.
  intros Hp Hb Hf [[a Ha] [b Hb']].
  unfold count_side_fn, inner_in, outer_in, same_cell.
  rewrite Ha, Hb'. destruct masks as [pm bm fm]. cbn in *.
  rewrite !store_in_range by done.
  destruct a, b, (inner tid =? outer tid); cbn;
    rewrite ?store_in_range by done; reflexivity.
Qed.

(** The threads [tid .. tid+count-1]. *)
Lemma launch_from_marks (count : nat) (tid : Z) (masks : SideMasks) :
  0 <= tid ->
  tid + Z.of_nat count <= WarpArray.shape0 (partition_side_mask masks) ->
  tid + Z.of_nat count <= WarpArray.shape0 (boundary_side_mask masks) ->
  tid + Z.of_nat count <= WarpArray.shape0 (frontier_side_mask masks) ->
  (forall s, tid <= s < tid + Z.of_nat count -> tests_defined geo arg test s) ->
  WarpArray.launch_from kernel tid count masks
  = Some {|
      partition_side_mask :=
        mark_from innerIn tid count (partition_side_mask masks);
      boundary_side_mask :=
        mark_from boundaryIn tid count (boundary_side_mask masks);
      frontier_side_mask :=
        mark_from frontierIn tid count (frontier_side_mask masks)
    |}.
Proof.
  revert tid masks.
  induction count as [|n IH]; intros tid masks Htid Hp Hb Hf Hdef.
  - by destruct masks.
  - cbn [WarpArray.launch_from mark_from].
    rewrite count_side_fn_marks by (try apply Hdef; lia). cbn [mbind option_bind].
    rewrite IH; [done | lia | unfold WarpArray.shape0 in *; cbn;
      rewrite length_mark; lia .. | intros s Hs; apply Hdef; lia].
Qed.

(** The whole pass over zeroed masks. *)
Lemma classify_sides_marks :
  0 <= Geometry.side_count geo ->
  (forall s, 0 <= s < Geometry.side_count geo -> tests_defined geo arg test s) ->
  let n := Z.to_nat (Geometry.side_count geo) in
  classify_sides geo arg test
  = Some {|
      partition_side_mask := mark_from innerIn 0 n (replicate n 0);
      boundary_side_mask := mark_from boundaryIn 0 n (replicate n 0);
      frontier_side_mask := mark_from frontierIn 0 n (replicate n 0)
    |}.
Proof.
  intros Hn Hdef n. unfold classify_sides, WarpArray.zeros, WarpArray.launch.
  rewrite decide_True by done. cbn [mbind option_bind].
  unfold WarpArray.shape0. rewrite length_replicate, Nat2Z.id. fold n.
  apply launch_from_marks; cbn; unfold WarpArray.shape0;
    rewrite ?length_replicate; try lia.
  intros s Hs. apply Hdef. lia.
Qed.

End Classification.

Section ClassificationResults.

Import CellBasedGeometryPartition.

Context {CellArgT : Type}.
Variable geo : Geometry.t.
Variable arg : CellArgT.
Variable test : CellArgT -> Z -> option bool.

Local Abbreviation inner s :=
  (Geometry.side_inner_cell_index geo (Geometry.side_arg_value geo) s).
Local Abbreviation outer s :=
  (Geometry.side_outer_cell_index geo (Geometry.side_arg_value geo) s).

(** C4: when the inclusion test answers for the neighbours of every side,
    the classification pass ends, and for every side [s], with [innerIn]
    and [outerIn] the answers for its inner and outer cell, the
    partition-side mask holds 1 at [s] if [innerIn] and 0 otherwise, the
    frontier mask holds 1 if [innerIn != outerIn] and 0 otherwise, and
    the boundary mask holds 1 if [innerIn] and the two cells are the same
    and 0 otherwise. *)
Theorem side_classification :
  0 <= Geometry.side_count geo ->
  (forall s, 0 <= s < Geometry.side_count geo -> tests_defined geo arg test s) ->
  exists masks,
    classify_sides geo arg test = Some masks
    /\ forall s, 0 <= s < Geometry.side_count geo ->
       exists innerIn outerIn : bool,
         test arg (inner s) = Some innerIn
         /\ test arg (outer s) = Some outerIn
         /\ WarpArray.load (partition_side_mask masks) s
            = Some (if innerIn then 1 else 0)
         /\ WarpArray.load (frontier_side_mask masks) s
            = Some (if negb (eqb innerIn outerIn) then 1 else 0)
         /\ WarpArray.load (boundary_side_mask masks) s
            = Some (if innerIn && (inner s =? outer s) then 1 else 0).
Proof.
  intros Hn Hdef. eexists. split; [by apply classify_sides_marks |].
  intros s Hs. destruct (Hdef s Hs) as [[a Ha] [b Hb]].
  exists a, b. split; [done |]. split; [done |].
  cbn [partition_side_mask boundary_side_mask frontier_side_mask].
  rewrite !load_lookup by lia.
  replace s with (Z.of_nat (Z.to_nat s)) at 2 4 6 7 8 by lia.
  rewrite !lookup_mark_from_zeros by lia.
  unfold inner_in, outer_in, same_cell.
  rewrite !Z2Nat.id by lia. rewrite Ha, Hb. done.
Qed.

(** One thread keeps set boundary slots within set partition slots. *)
Lemma count_side_fn_boundary_within_partition (tid : Z)
    (masks masks' : SideMasks) :
  count_side_fn geo arg test tid masks = Some masks' ->
  boundary_within_partition masks -> boundary_within_partition masks'.
Proof.
  unfold count_side_fn. destruct masks as [pm bm fm].
  destruct (test arg (inner tid)) as [a|]; [| done].
  destruct (test arg (outer tid)) as [b|]; [| done].
  cbn -[negb eqb]. intros Hrun Hinv.
  assert (exists pm' bm' fm',
    masks' = {| partition_side_mask := pm'; boundary_side_mask := bm';
                frontier_side_mask := fm' |}
    /\ ((pm' = pm /\ bm' = bm)
        \/ ((Z.to_nat tid < length pm)%nat /\ pm' = <[Z.to_nat tid := 1]> pm
            /\ (bm' = bm \/ bm' = <[Z.to_nat tid := 1]> bm))))
    as (pm' & bm' & fm' & -> & Hcases).
  { destruct a.
    - destruct (WarpArray.store pm tid 1) as [pm1|] eqn:Hpm; [| done].
      apply store_Some in Hpm as [Hlt ->]. cbn -[negb eqb] in Hrun.
      destruct (inner tid =? outer tid).
      + destruct (WarpArray.store bm tid 1) as [bm1|] eqn:Hbm; [| done].
        apply store_Some in Hbm as [_ ->]. cbn -[negb eqb] in Hrun.
        destruct (negb (eqb true b)).
        * destruct (WarpArray.store fm tid 1) as [fm1|]; [| done].
          injection Hrun as <-. eauto 10.
        * injection Hrun as <-. eauto 10.
      + cbn -[negb eqb] in Hrun. destruct (negb (eqb true b)).
        * destruct (WarpArray.store fm tid 1) as [fm1|]; [| done].
          injection Hrun as <-. eauto 10.
        * injection Hrun as <-. eauto 10.
    - cbn -[negb eqb] in Hrun. destruct (negb (eqb false b)).
      + destruct (WarpArray.store fm tid 1) as [fm1|]; [| done].
        injection Hrun as <-. eauto 10.
      + injection Hrun as <-. eauto 10. }
  intros j v. cbn. intros Hj Hv.
  destruct Hcases as [[-> ->] | (Hlt & -> & Hbm)]; [by apply (Hinv j v) |].
  destruct (decide (j = Z.to_nat tid)) as [-> | Hne].
  - exists 1. by rewrite list_lookup_insert_eq.
  - rewrite list_lookup_insert_ne by done. apply (Hinv j v); [| done].
    destruct Hbm as [-> | ->]; [done |].
    by rewrite list_lookup_insert_ne in Hj.
Qed.

Lemma launch_from_boundary_within_partition (count : nat) (tid : Z)
    (masks masks' : SideMasks) :
  WarpArray.launch_from (count_side_fn geo arg test) tid count masks
  = Some masks' ->
  boundary_within_partition masks -> boundary_within_partition masks'.
Proof.
  revert tid masks. induction count as [|n IH]; intros tid masks.
  - by intros [= <-].
  - cbn [WarpArray.launch_from].
    destruct (count_side_fn geo arg test tid masks) as [masks1|] eqn:Hstep;
      [| done].
    cbn. intros Hrun Hinv. apply (IH _ _ Hrun).
    by apply (count_side_fn_boundary_within_partition tid masks).
Qed.

Lemma classify_sides_boundary_within_partition (masks : SideMasks) :
  classify_sides geo arg test = Some masks -> boundary_within_partition masks.
Proof.
  unfold classify_sides, WarpArray.zeros. case_decide; [| done]. cbn.
  intros Hrun. apply (launch_from_boundary_within_partition _ _ _ _ Hrun).
  intros j v. cbn. intros [-> _]%lookup_replicate_1. done.
Qed.

(** Compaction turns the invariant of the masks into an inclusion of the
    index arrays. *)
Lemma boundary_within_partition_compact (missing_index : Z)
    (masks : SideMasks) :
  boundary_within_partition masks ->
  (masked_indices missing_index (boundary_side_mask masks)).1
  ⊆ (masked_indices missing_index (partition_side_mask masks)).1.
Proof.
  intros Hinv x. unfold masked_indices. rewrite !masked_indices_from_elem.
  intros (n & v & Hn & Hv & ->).
  destruct (Hinv n v Hn Hv) as (w & Hw & Hw0). eauto.
Qed.

(** C6: whatever the inclusion test, every side index that
    [compute_side_indices_from_cells] puts in the boundary array is also
    in the partition-side array. *)
Theorem boundary_side_indices_subset (missing_index : Z) (self : t) :
  compute_side_indices_from_cells geo arg test missing_index = Some self ->
  _boundary_side_indices self ⊆ _partition_side_indices self.
Proof.
  unfold compute_side_indices_from_cells.
  destruct (classify_sides geo arg test) as [masks|] eqn:Hmasks; [| done].
  intros [= <-]. cbn.
  apply boundary_within_partition_compact.
  by apply classify_sides_boundary_within_partition.
Qed.

End ClassificationResults.

Lemma side_classification_witness :
  exists masks,
    CellBasedGeometryPartition.classify_sides (chain 4)
      (LinearGeometryPartition.cell_arg_value rank1_of_2)
      (fun a c => Some (LinearGeometryPartition._cell_inclusion_test a c))
    = Some masks
    /\ forall s, 0 <= s < 5 ->
       exists innerIn outerIn : bool,
         Some (LinearGeometryPartition._cell_inclusion_test
                 (LinearGeometryPartition.cell_arg_value rank1_of_2)
                 (if s =? 0 then 0 else s - 1)) = Some innerIn
         /\ Some (LinearGeometryPartition._cell_inclusion_test
                    (LinearGeometryPartition.cell_arg_value rank1_of_2)
                    (if s =? 4 then 3 else s)) = Some outerIn
         /\ WarpArray.load
              (CellBasedGeometryPartition.partition_side_mask masks) s
            = Some (if innerIn then 1 else 0)
         /\ WarpArray.load
              (CellBasedGeometryPartition.frontier_side_mask masks) s
            = Some (if negb (eqb innerIn outerIn) then 1 else 0)
         /\ WarpArray.load
              (CellBasedGeometryPartition.boundary_side_mask masks) s
            = Some (if innerIn
                       && ((if s =? 0 then 0 else s - 1)
                           =? (if s =? 4 then 3 else s))
                    then 1 else 0).
Proof.
  apply (side_classification (chain 4)
           (LinearGeometryPartition.cell_arg_value rank1_of_2)
           (fun a c => Some (LinearGeometryPartition._cell_inclusion_test a c))).
  - vm_compute. discriminate.
  - intros s _. split; eexists; reflexivity.
Defined.

Lemma boundary_side_indices_subset_witness :
  CellBasedGeometryPartition._boundary_side_indices
    (LinearGeometryPartition.base rank1_of_2)
  ⊆ CellBasedGeometryPartition._partition_side_indices
      (LinearGeometryPartition.base rank1_of_2).
Proof.
  apply (boundary_side_indices_subset (chain 4)
           (LinearGeometryPartition.cell_arg_value rank1_of_2)
           (fun a c => Some (LinearGeometryPartition._cell_inclusion_test a c))
           (-1)).
  reflexivity.
Defined.

(** The inclusion for the two strategies that run the classification. *)
Lemma linear_boundary_side_indices_subset (missing_index : Z)
    (geo : Geometry.t) (rank count : Z) (p : LinearGeometryPartition.t) :
  LinearGeometryPartition.__init__ missing_index geo rank count = Some p ->
  CellBasedGeometryPartition._boundary_side_indices
    (LinearGeometryPartition.base p)
  ⊆ CellBasedGeometryPartition._partition_side_indices
      (LinearGeometryPartition.base p).
Proof.
  unfold LinearGeometryPartition.__init__,
    CellBasedGeometryPartition.compute_side_indices_from_cells.
  destruct (LinearGeometryPartition.cell_range _ _ _) as [r|]; [| done]. cbn.
  destruct (CellBasedGeometryPartition.classify_sides _ _ _) as [masks|]
    eqn:Hmasks; [| done].
  intros [= <-]. cbn. apply boundary_within_partition_compact.
  by eapply classify_sides_boundary_within_partition.
Qed.

Lemma explicit_boundary_side_indices_subset (missing_index : Z)
    (geo : Geometry.t) (cell_mask : list Z) (p : ExplicitGeometryPartition.t) :
  ExplicitGeometryPartition.__init__ missing_index geo cell_mask = Some p ->
  CellBasedGeometryPartition._boundary_side_indices
    (ExplicitGeometryPartition.base p)
  ⊆ CellBasedGeometryPartition._partition_side_indices
      (ExplicitGeometryPartition.base p).
Proof.
  unfold ExplicitGeometryPartition.__init__,
    CellBasedGeometryPartition.compute_side_indices_from_cells.
  destruct (CellBasedGeometryPartition.classify_sides _ _ _) as [masks|]
    eqn:Hmasks; [| done].
  intros [= <-]. cbn. apply boundary_within_partition_compact.
  by eapply classify_sides_boundary_within_partition.
Qed.

(** ** The explicit partition *)

Section Explicit.

Import ExplicitGeometryPartition.

Variable missing_index : Z.

(** C10: on an explicit partition built from a 0/1 mask,
    [partition_cell_index] undoes [cell_index] on every local index below
    [cell_count()]: both array reads are within bounds and the second
    returns the local index. *)
Theorem explicit_roundtrip (geo : Geometry.t) (cell_mask : list Z)
    (p : t) (i : Z) :
  is_mask cell_mask ->
  __init__ missing_index geo cell_mask = Some p ->
  0 <= i < cell_count p ->
  exists g,
    cell_index (cell_arg_value p) i = Some g
    /\ partition_cell_index (cell_arg_value p) g = Some i.
Proof.
  intros _. unfold __init__.
  destruct (CellBasedGeometryPartition.compute_side_indices_from_cells
              _ _ _ _) as [b|]; [| done].
  intros [= <-]. unfold cell_count, cell_index, partition_cell_index,
    WarpArray.shape0, masked_indices. cbn. intros Hi.
  destruct ((masked_indices_from missing_index 0 0 cell_mask).1 !! Z.to_nat i)
    as [g|] eqn:Hg; [| apply lookup_ge_None in Hg; lia].
  exists g. rewrite load_lookup by lia. split; [done |].
  apply masked_indices_from_inverse in Hg as [Hg0 Hinv].
  rewrite load_lookup by done. rewrite Z.sub_0_r in Hinv.
  rewrite Hinv. f_equal. lia.
Qed.

Lemma all_ones_lookup (mask : list Z) (c : Z) :
  Forall (fun m => m = 1) mask -> 0 <= c < WarpArray.shape0 mask ->
  _cell_inclusion_test mask c = Some true.
Proof.
  intros Hones Hc. unfold _cell_inclusion_test, WarpArray.shape0 in *.
  rewrite load_lookup by lia.
  destruct (mask !! Z.to_nat c) as [m|] eqn:Hm;
    [| apply lookup_ge_None in Hm; lia].
  rewrite (proj1 (list.Forall_lookup _ _) Hones _ _ Hm). done.
Qed.

(** With every cell owned every side is a partition side, as in the whole
    partition. *)
Lemma explicit_all_ones_side_count (geo : Geometry.t) (cell_mask : list Z) :
  Geometry.wf geo ->
  WarpArray.shape0 cell_mask = Geometry.cell_count geo ->
  Forall (fun m => m = 1) cell_mask ->
  exists p,
    __init__ missing_index geo cell_mask = Some p
    /\ side_count p
       = WholeGeometryPartition.side_count (WholeGeometryPartition.__init__ geo).
Proof.
  intros [Hc Hs Hin Hout] Hlen Hones.
  assert (forall s, 0 <= s < Geometry.side_count geo ->
    tests_defined geo cell_mask _cell_inclusion_test s
    /\ inner_in geo cell_mask _cell_inclusion_test s = true) as Htests.
  { intros s Hr. unfold tests_defined, inner_in.
    rewrite !all_ones_lookup by (try done; rewrite Hlen; auto). eauto. }
  unfold __init__, CellBasedGeometryPartition.compute_side_indices_from_cells.
  rewrite classify_sides_marks; [| done | intros s Hr; by apply Htests].
  cbn. eexists. split; [reflexivity |].
  unfold side_count, CellBasedGeometryPartition.side_count, WarpArray.shape0,
    masked_indices, WholeGeometryPartition.side_count. cbn.
  rewrite masked_indices_from_ones_length.
  - rewrite length_mark_from, length_replicate. lia.
  - apply list.Forall_lookup. intros j v Hj.
    assert (j < Z.to_nat (Geometry.side_count geo))%nat as Hlt.
    { apply lookup_lt_Some in Hj.
      by rewrite length_mark_from, length_replicate in Hj. }
    rewrite lookup_mark_from_zeros in Hj by done.
    destruct (Htests (Z.of_nat j) ltac:(lia)) as [_ Hi].
    rewrite Hi in Hj. congruence.
Qed.

End Explicit.

Lemma explicit_roundtrip_witness :
  exists g,
    ExplicitGeometryPartition.cell_index
      (ExplicitGeometryPartition.cell_arg_value alternate_cells) 1 = Some g
    /\ ExplicitGeometryPartition.partition_cell_index
         (ExplicitGeometryPartition.cell_arg_value alternate_cells) g = Some 1.
Proof.
  apply (explicit_roundtrip (-1) (chain 4) [1; 0; 1; 0] alternate_cells 1).
  - repeat (constructor; [lia |]). constructor.
  - reflexivity.
  - vm_compute. split; [discriminate | reflexivity].
Defined.

Lemma chain_wf (n : Z) : 1 <= n -> Geometry.wf (chain n).
Proof.
  intros Hn. split; cbn; try lia.
  - intros s Hs. destruct (Z.eqb_spec s 0); lia.
  - intros s Hs. destruct (Z.eqb_spec s n); lia.
Qed.

(** * Further properties of the partitions *)

(** ** Linear ranges, continued *)

Section LinearRangesMore.

Import LinearGeometryPartition.

Variables C P : Z.
Hypothesis C_nonneg : 0 <= C.
Hypothesis P_pos : 1 <= P.

(** X4: consecutive ranges touch: where the next rank still begins within the
    cells, it begins where this rank ends. *)
Lemma cell_range_contiguous (r b e b' e' : Z) :
  cell_range C r P = Some (b, e) -> cell_range C (r + 1) P = Some (b', e') ->
  b' <= C -> e = b'.
Proof.
  rewrite !cell_range_eq by done. intros [= <- <-] [= <- <-] Hb. lia.
Qed.

(** X5: a rank that begins within the cells owns between none and a chunk of
    cells; the first rank begins at cell 0. *)
Lemma cell_range_count_bounds (r b e : Z) :
  0 <= r -> cell_range C r P = Some (b, e) -> b <= C ->
  0 <= e - b <= cells_per_partition C P /\ (r = 0 -> b = 0).
Proof.
  rewrite cell_range_eq by done. intros Hr [= <- <-] Hb.
  destruct (chunk_covers C P C_nonneg P_pos) as [Hc0 _]. split; [lia | nia].
Qed.

(** X1: every cell lies in the range of exactly one rank below [P]. *)
Lemma linear_ranges_partition_cells (g : Z) :
  0 <= g < C ->
  exists r,
    (0 <= r < P
     /\ exists b e, cell_range C r P = Some (b, e) /\ b <= g < e)
    /\ forall r' b' e',
         cell_range C r' P = Some (b', e') -> b' <= g < e' -> r' = r.
Proof.
  intros Hg.
  destruct (cell_range_cover C P C_nonneg P_pos g Hg)
    as (r & b & e & Hr & Hrange & Hin).
  exists r. split; [eauto |].
  intros r' b' e' Hrange' Hin'.
  exact (cell_range_disjoint C P C_nonneg P_pos r' r b' e' b e g
           Hrange' Hrange Hin' Hin).
Qed.

End LinearRangesMore.

Lemma linear_ranges_partition_cells_witness :
  exists r,
    (0 <= r < 4
     /\ exists b e,
          LinearGeometryPartition.cell_range 5 r 4 = Some (b, e) /\ b <= 4 < e)
    /\ forall r' b' e',
         LinearGeometryPartition.cell_range 5 r' 4 = Some (b', e') ->
         b' <= 4 < e' -> r' = r.
Proof. apply (linear_ranges_partition_cells 5 4); lia. Defined.

Lemma cell_range_within_witness : 0 <= 4 < 5.
Proof.
  apply (cell_range_within 5 4 ltac:(lia) ltac:(lia) 2 4 5 4);
    [lia | reflexivity | lia].
Defined.

Lemma cell_range_beyond_witness : 5 - 6 = 5 - 6 /\ 5 - 6 < 0.
Proof.
  apply (cell_range_beyond 5 4 ltac:(lia) ltac:(lia) 3 6 5);
    [reflexivity | lia].
Defined.

Lemma cell_range_contiguous_witness : 4 = 4.
Proof.
  apply (cell_range_contiguous 5 4 ltac:(lia) 1 2 4 4 5);
    [reflexivity | reflexivity | lia].
Defined.

Lemma cell_range_count_bounds_witness :
  0 <= 5 - 4 <= LinearGeometryPartition.cells_per_partition 5 4
  /\ (2 = 0 -> 4 = 0).
Proof.
  apply (cell_range_count_bounds 5 4 ltac:(lia) ltac:(lia) 2 4 5);
    [lia | reflexivity | lia].
Defined.

(** ** Linear index maps, continued *)

Section LinearMaps.

Import LinearGeometryPartition.

Variable NULL_ELEMENT_INDEX : Z.

Lemma inclusion_test_range (args : CellArg.t) (g : Z) :
  _cell_inclusion_test args g = true
  <-> CellArg.cell_begin args <= g < CellArg.cell_end args.
Proof. unfold _cell_inclusion_test. rewrite andb_true_iff. lia. Qed.

(** X6: the other round trip: a cell that the inclusion test accepts has a
    local index below [cell_end - cell_begin], and [cell_index] leads back
    from it to the cell. *)
Lemma linear_roundtrip_global (args : CellArg.t) (g : Z) :
  CellArg.wf args -> 0 <= CellArg.cell_begin args ->
  _cell_inclusion_test args g = true ->
  0 <= partition_cell_index NULL_ELEMENT_INDEX args g
    < CellArg.cell_end args - CellArg.cell_begin args
  /\ cell_index args (partition_cell_index NULL_ELEMENT_INDEX args g) = g.
Proof.
  unfold CellArg.wf, Int32.in_range, Int32.min_signed, Int32.max_signed.
  intros [Hb He] Hb0 Hin%inclusion_test_range.
  rewrite partition_cell_index_spec
    by (unfold Int32.in_range, Int32.min_signed, Int32.max_signed; lia).
  rewrite decide_False by lia. split; [lia |].
  unfold cell_index, Int32.add.
  replace (CellArg.cell_begin args + (g - CellArg.cell_begin args)) with g
    by lia.
  apply wrap_in_range.
  unfold Int32.in_range, Int32.min_signed, Int32.max_signed. lia.
Qed.

(** X7: [cell_index] sends every local index below [cell_end - cell_begin] to
    a cell that the inclusion test accepts. *)
Lemma linear_cell_index_included (args : CellArg.t) (i : Z) :
  CellArg.wf args ->
  0 <= i < CellArg.cell_end args - CellArg.cell_begin args ->
  _cell_inclusion_test args (cell_index args i) = true.
Proof.
  unfold CellArg.wf, Int32.in_range, Int32.min_signed, Int32.max_signed.
  intros [Hb He] Hi. apply inclusion_test_range.
  unfold cell_index, Int32.add. rewrite wrap_in_range; [lia |].
  unfold Int32.in_range, Int32.min_signed, Int32.max_signed. lia.
Qed.

(** X8: a cell that the inclusion test rejects is mapped to
    [NULL_ELEMENT_INDEX], unless it is [cell_end] itself. *)
Lemma linear_rejected_cell_null (args : CellArg.t) (g : Z) :
  Int32.in_range (g - CellArg.cell_begin args) ->
  _cell_inclusion_test args g = false -> g <> CellArg.cell_end args ->
  partition_cell_index NULL_ELEMENT_INDEX args g = NULL_ELEMENT_INDEX.
Proof.
  intros Hsub Hout Hne. rewrite partition_cell_index_spec by done.
  apply decide_True.
  destruct (_cell_inclusion_test args g) eqn:Hin; [done |].
  apply not_true_iff_false in Hin. rewrite inclusion_test_range in Hin. lia.
Qed.

End LinearMaps.

Lemma linear_roundtrip_global_witness :
  0 <= LinearGeometryPartition.partition_cell_index (-1)
         (LinearGeometryPartition.cell_arg_value rank1_of_2) 3 < 4 - 2
  /\ LinearGeometryPartition.cell_index
       (LinearGeometryPartition.cell_arg_value rank1_of_2)
       (LinearGeometryPartition.partition_cell_index (-1)
          (LinearGeometryPartition.cell_arg_value rank1_of_2) 3) = 3.
Proof.
  apply (linear_roundtrip_global (-1)
           (LinearGeometryPartition.cell_arg_value rank1_of_2) 3).
  - split; vm_compute; split; discriminate.
  - vm_compute. discriminate.
  - reflexivity.
Defined.

Lemma linear_cell_index_included_witness :
  LinearGeometryPartition._cell_inclusion_test
    (LinearGeometryPartition.cell_arg_value rank1_of_2)
    (LinearGeometryPartition.cell_index
       (LinearGeometryPartition.cell_arg_value rank1_of_2) 1) = true.
Proof.
  apply (linear_cell_index_included
           (LinearGeometryPartition.cell_arg_value rank1_of_2) 1).
  - split; vm_compute; split; discriminate.
  - vm_compute. split; [discriminate | reflexivity].
Defined.

Lemma linear_rejected_cell_null_witness :
  LinearGeometryPartition.partition_cell_index (-1)
    (LinearGeometryPartition.cell_arg_value rank1_of_2) 0 = -1.
Proof.
  apply (linear_rejected_cell_null (-1)
           (LinearGeometryPartition.cell_arg_value rank1_of_2) 0).
  - vm_compute. split; discriminate.
  - reflexivity.
  - vm_compute. discriminate.
Defined.

(** ** One thread of the classification kernel *)

Lemma store_if_Some (c : bool) (mask mask' : list Z) (s : Z) :
  store_if c mask s = Some mask' -> only_marked s mask mask'.
Proof.
  unfold only_marked. destruct c; cbn.
  - intros [Hlt ->]%store_Some. split; [apply length_insert |].
    intros j. destruct (decide (j = Z.to_nat s)) as [-> | Hne].
    + right. split; [done |]. by apply list_lookup_insert_eq.
    + left. by apply list_lookup_insert_ne.
  - intros [= <-]. split; [done |]. intros j. by left.
Qed.

Lemma store_if_again (c : bool) (mask mask' : list Z) (s : Z) :
  store_if c mask s = Some mask' -> store_if c mask' s = Some mask'.
Proof.
  destruct c; cbn; [| done]. unfold WarpArray.store, WarpArray.shape0.
  case_decide as Hr; [| done]. intros [= <-].
  rewrite length_insert, decide_True by done.
  by rewrite list_insert_insert_eq.
Qed.

Lemma store_if_commute (c1 c2 : bool) (mask : list Z) (s1 s2 : Z) :
  (m ← store_if c1 mask s1; store_if c2 m s2)
  = (m ← store_if c2 mask s2; store_if c1 m s1).
Proof.
  destruct c1, c2; cbn; try done.
  - unfold WarpArray.store, WarpArray.shape0.
    destruct (decide (0 <= s1 < Z.of_nat (length mask))) as [H1|H1],
      (decide (0 <= s2 < Z.of_nat (length mask))) as [H2|H2]; cbn;
      rewrite ?length_insert, ?(decide_True _ _ H1), ?(decide_True _ _ H2),
        ?(decide_False _ _ H1), ?(decide_False _ _ H2); try done.
    f_equal. destruct (decide (Z.to_nat s1 = Z.to_nat s2)) as [-> | Hne];
      [done | by apply list_insert_insert_ne].
  - by destruct (WarpArray.store mask s1 1).
  - by destruct (WarpArray.store mask s2 1).
Qed.

Lemma side_masks_bind (pm bm fm : option (list Z))
    (fp fb ff : list Z -> option (list Z)) :
  (masks ← side_masks pm bm fm;
   side_masks (fp (CellBasedGeometryPartition.partition_side_mask masks))
     (fb (CellBasedGeometryPartition.boundary_side_mask masks))
     (ff (CellBasedGeometryPartition.frontier_side_mask masks)))
  = side_masks (pm ≫= fp) (bm ≫= fb) (fm ≫= ff).
Proof.
  destruct pm as [pm|], bm as [bm|], fm as [fm|]; cbn; try done;
    unfold side_masks; repeat case_match; done.
Qed.

Section Kernel.

Import CellBasedGeometryPartition.

Context {CellArgT : Type}.
Variable geo : Geometry.t.
Variable arg : CellArgT.
Variable test : CellArgT -> Z -> option bool.

Local Abbreviation inner s :=
  (Geometry.side_inner_cell_index geo (Geometry.side_arg_value geo) s).
Local Abbreviation outer s :=
  (Geometry.side_outer_cell_index geo (Geometry.side_arg_value geo) s).
Local Abbreviation kernel := (count_side_fn geo arg test).

(** The thread as two tests and three independent conditional stores. *)
Lemma count_side_fn_stores (tid : Z) (masks : SideMasks) :
  kernel tid masks
  = (a ← test arg (inner tid);
     b ← test arg (outer tid);
     side_masks
       (store_if a (partition_side_mask masks) tid)
       (store_if (a && (inner tid =? outer tid)) (boundary_side_mask masks) tid)
       (store_if (negb (eqb a b)) (frontier_side_mask masks) tid)).
Proof.
  unfold count_side_fn. destruct masks as [pm bm fm].
  destruct (test arg (inner tid)) as [a|]; [| done].
  destruct (test arg (outer tid)) as [b|]; [| done].
  cbn -[negb eqb].
  destruct a, b, (inner tid =? outer tid); cbn;
    destruct (WarpArray.store pm tid 1); cbn; try done;
    destruct (WarpArray.store bm tid 1); cbn; try done;
    destruct (WarpArray.store fm tid 1); cbn; done.
Qed.

Lemma count_side_fn_Some (tid : Z) (masks masks' : SideMasks) :
  kernel tid masks = Some masks' ->
  exists a b,
    test arg (inner tid) = Some a /\ test arg (outer tid) = Some b
    /\ store_if a (partition_side_mask masks) tid
       = Some (partition_side_mask masks')
    /\ store_if (a && (inner tid =? outer tid)) (boundary_side_mask masks) tid
       = Some (boundary_side_mask masks')
    /\ store_if (negb (eqb a b)) (frontier_side_mask masks) tid
       = Some (frontier_side_mask masks').
Proof.
  rewrite count_side_fn_stores.
  destruct (test arg (inner tid)) as [a|]; [| done].
  destruct (test arg (outer tid)) as [b|]; [| done].
  cbn -[negb eqb]. unfold side_masks.
  destruct (store_if a (partition_side_mask masks) tid) eqn:Hp; [| done].
  destruct (store_if (a && (inner tid =? outer tid))
              (boundary_side_mask masks) tid) eqn:Hb; [| done].
  destruct (store_if (negb (eqb a b)) (frontier_side_mask masks) tid) eqn:Hf;
    [| done].
  intros [= <-]. exists a, b. repeat split; done.
Qed.

(** X9: a thread writes nothing but a 1 into slot [tid] of each mask: the
    masks keep their lengths and every other slot keeps its content. *)
Theorem count_side_fn_frame (tid : Z) (masks masks' : SideMasks) :
  kernel tid masks = Some masks' ->
  only_marked tid (partition_side_mask masks) (partition_side_mask masks')
  /\ only_marked tid (boundary_side_mask masks) (boundary_side_mask masks')
  /\ only_marked tid (frontier_side_mask masks) (frontier_side_mask masks').
Proof.
  intros (a & b & _ & _ & Hp & Hb & Hf)%count_side_fn_Some.
  split_and!; by eapply store_if_Some.
Qed.

(** X10: running a thread a second time changes nothing. *)
Theorem count_side_fn_idempotent (tid : Z) (masks masks' : SideMasks) :
  kernel tid masks = Some masks' -> kernel tid masks' = Some masks'.
Proof.
  intros (a & b & Ha & Hb & Hp & Hbm & Hf)%count_side_fn_Some.
  rewrite count_side_fn_stores, Ha, Hb. cbn -[negb eqb].
  rewrite (store_if_again _ _ _ _ Hp), (store_if_again _ _ _ _ Hbm),
    (store_if_again _ _ _ _ Hf).
  by destruct masks'.
Qed.

(** X11: two threads give the same masks in either order, and fail in one order
    exactly when they fail in the other. *)
Theorem count_side_fn_commute (tid1 tid2 : Z) (masks : SideMasks) :
  (m ← kernel tid1 masks; kernel tid2 m)
  = (m ← kernel tid2 masks; kernel tid1 m).
Proof.
  assert (forall t (o : option SideMasks),
    test arg (inner t) = None \/ test arg (outer t) = None ->
    (m ← o; kernel t m) = None) as Hnone.
  { intros t [m|] Hn; [| done]. cbn. rewrite count_side_fn_stores.
    destruct Hn as [-> | ->]; [done |]. by destruct (test arg (inner t)). }
  rewrite (count_side_fn_stores tid1 masks), (count_side_fn_stores tid2 masks).
  destruct (test arg (inner tid1)) as [a1|] eqn:Ha1;
    [| cbn; symmetry; apply Hnone; by left].
  destruct (test arg (outer tid1)) as [b1|] eqn:Hb1;
    [| cbn; symmetry; apply Hnone; by right].
  destruct (test arg (inner tid2)) as [a2|] eqn:Ha2;
    [| cbn -[negb eqb]; apply Hnone; by left].
  destruct (test arg (outer tid2)) as [b2|] eqn:Hb2;
    [| cbn -[negb eqb]; apply Hnone; by right].
  cbn -[negb eqb].
  transitivity
    (side_masks
       (m ← store_if a1 (partition_side_mask masks) tid1; store_if a2 m tid2)
       (m ← store_if (a1 && (inner tid1 =? outer tid1))
              (boundary_side_mask masks) tid1;
        store_if (a2 && (inner tid2 =? outer tid2)) m tid2)
       (m ← store_if (negb (eqb a1 b1)) (frontier_side_mask masks) tid1;
        store_if (negb (eqb a2 b2)) m tid2)).
  - rewrite <- side_masks_bind. apply option_bind_ext; [| done].
    intros m. rewrite count_side_fn_stores, Ha2, Hb2. done.
  - rewrite !(store_if_commute _ _ _ tid1 tid2).
    rewrite <- side_masks_bind. apply option_bind_ext; [| done].
    intros m. rewrite count_side_fn_stores, Ha1, Hb1. done.
Qed.

End Kernel.

Lemma count_side_fn_frame_witness :
  only_marked 3 [0; 0; 0; 0; 0] [0; 0; 0; 1; 0]
  /\ only_marked 3 [0; 0; 0; 0; 0] [0; 0; 0; 0; 0]
  /\ only_marked 3 [0; 0; 0; 0; 0] [0; 0; 0; 0; 0].
Proof.
  apply (count_side_fn_frame (chain 4)
           (LinearGeometryPartition.cell_arg_value rank1_of_2)
           (fun a c => Some (LinearGeometryPartition._cell_inclusion_test a c))
           3
           {| CellBasedGeometryPartition.partition_side_mask := [0; 0; 0; 0; 0];
              CellBasedGeometryPartition.boundary_side_mask := [0; 0; 0; 0; 0];
              CellBasedGeometryPartition.frontier_side_mask := [0; 0; 0; 0; 0] |}
           {| CellBasedGeometryPartition.partition_side_mask := [0; 0; 0; 1; 0];
              CellBasedGeometryPartition.boundary_side_mask := [0; 0; 0; 0; 0];
              CellBasedGeometryPartition.frontier_side_mask := [0; 0; 0; 0; 0] |}).
  reflexivity.
Defined.

Lemma count_side_fn_idempotent_witness :
  let masks :=
    {| CellBasedGeometryPartition.partition_side_mask := [0; 0; 0; 0; 0];
       CellBasedGeometryPartition.boundary_side_mask := [0; 0; 0; 0; 0];
       CellBasedGeometryPartition.frontier_side_mask := [0; 0; 1; 0; 0] |} in
  CellBasedGeometryPartition.count_side_fn (chain 4)
    (LinearGeometryPartition.cell_arg_value rank1_of_2)
    (fun a c => Some (LinearGeometryPartition._cell_inclusion_test a c))
    2 masks = Some masks.
Proof.
  apply (count_side_fn_idempotent (chain 4)
           (LinearGeometryPartition.cell_arg_value rank1_of_2)
           (fun a c => Some (LinearGeometryPartition._cell_inclusion_test a c))
           2
           {| CellBasedGeometryPartition.partition_side_mask := [0; 0; 0; 0; 0];
              CellBasedGeometryPartition.boundary_side_mask := [0; 0; 0; 0; 0];
              CellBasedGeometryPartition.frontier_side_mask := [0; 0; 0; 0; 0] |}).
  reflexivity.
Defined.

(** ** The index arrays of the classification *)

Lemma masked_indices_from_length (missing_index : Z) (mask : list Z)
    (pos count : Z) :
  (length (masked_indices_from missing_index pos count mask).1
   <= length mask)%nat.
Proof.
  revert pos count. induction mask as [|m rest IH]; intros pos count; [done |].
  cbn [masked_indices_from]. case_decide; cbn [fst length].
  - specialize (IH (pos + 1) count). lia.
  - specialize (IH (pos + 1) (count + 1)). lia.
Qed.

Lemma masked_indices_NoDup (missing_index : Z) (mask : list Z) :
  NoDup (masked_indices missing_index mask).1.
Proof.
  unfold masked_indices.
  pose proof (masked_indices_from_ascending missing_index mask 0 0) as Hs.
  induction Hs as [|x l _ IH Hall]; constructor; [| done].
  intros Hx. apply (proj1 (list.Forall_forall _ _) Hall) in Hx. lia.
Qed.

(** The indices selected from a classified mask. *)
Lemma masked_indices_mark_from_elem (missing_index : Z) (c : Z -> bool)
    (n : nat) (x : Z) :
  x ∈ (masked_indices missing_index (mark_from c 0 n (replicate n 0))).1
  <-> 0 <= x < Z.of_nat n /\ c x = true.
Proof.
  unfold masked_indices. rewrite masked_indices_from_elem. split.
  - intros (j & v & Hj & Hv & ->).
    assert (j < n)%nat as Hlt.
    { apply lookup_lt_Some in Hj.
      by rewrite length_mark_from, length_replicate in Hj. }
    rewrite lookup_mark_from_zeros in Hj by done.
    rewrite Z.add_0_l. split; [lia |].
    destruct (c (Z.of_nat j)); [done | congruence].
  - intros [Hx Hc]. exists (Z.to_nat x), 1.
    rewrite lookup_mark_from_zeros by lia.
    rewrite Z2Nat.id by lia. rewrite Hc. split_and!; [done | done | lia].
Qed.

Lemma mark_from_ext (c c' : Z -> bool) (count : nat) (s : Z) (mask : list Z) :
  (forall t, s <= t < s + Z.of_nat count -> c t = c' t) ->
  mark_from c s count mask = mark_from c' s count mask.
Proof.
  revert s mask. induction count as [|n IH]; intros s mask Hext; [done |].
  cbn [mark_from]. rewrite (Hext s) by lia. apply IH.
  intros t Ht. apply Hext. lia.
Qed.

Section Indices.

Import CellBasedGeometryPartition.

Context {CellArgT : Type}.
Variable geo : Geometry.t.
Variable arg : CellArgT.
Variable test : CellArgT -> Z -> option bool.
Variable missing_index : Z.

Local Abbreviation inner s :=
  (Geometry.side_inner_cell_index geo (Geometry.side_arg_value geo) s).
Local Abbreviation outer s :=
  (Geometry.side_outer_cell_index geo (Geometry.side_arg_value geo) s).
Local Abbreviation kernel := (count_side_fn geo arg test).
Local Abbreviation n := (Z.to_nat (Geometry.side_count geo)).

Lemma launch_from_Some_defined (count : nat) (tid : Z)
    (masks masks' : SideMasks) :
  WarpArray.launch_from kernel tid count masks = Some masks' ->
  forall s, tid <= s < tid + Z.of_nat count -> tests_defined geo arg test s.
Proof.
  revert tid masks. induction count as [|k IH]; intros tid masks Hrun s Hs;
    [lia |].
  cbn [WarpArray.launch_from] in Hrun.
  destruct (kernel tid masks) as [masks1|] eqn:Hstep; [| done].
  destruct (decide (s = tid)) as [-> | Hne].
  - apply count_side_fn_Some in Hstep as (a & b & Ha & Hb & _).
    unfold tests_defined. rewrite Ha, Hb. eauto.
  - apply (IH _ _ Hrun). lia.
Qed.

Lemma classify_sides_Some (masks : SideMasks) :
  classify_sides geo arg test = Some masks ->
  0 <= Geometry.side_count geo
  /\ forall s, 0 <= s < Geometry.side_count geo -> tests_defined geo arg test s.
Proof.
  unfold classify_sides, WarpArray.zeros, WarpArray.launch.
  case_decide as Hn; [| done]. cbn.
  unfold WarpArray.shape0. rewrite length_replicate, Nat2Z.id.
  intros Hrun. split; [done |]. intros s Hs.
  apply (launch_from_Some_defined _ _ _ _ Hrun). lia.
Qed.

(** What [compute_side_indices_from_cells] returns, in closed form. *)
Lemma compute_side_indices_Some (self : t) :
  compute_side_indices_from_cells geo arg test missing_index = Some self ->
  (0 <= Geometry.side_count geo
   /\ forall s, 0 <= s < Geometry.side_count geo ->
        tests_defined geo arg test s)
  /\ self = {|
       geometry := geo;
       _partition_side_indices :=
         (masked_indices missing_index
            (mark_from (inner_in geo arg test) 0 n (replicate n 0))).1;
       _boundary_side_indices :=
         (masked_indices missing_index
            (mark_from (fun s => inner_in geo arg test s && same_cell geo s)
               0 n (replicate n 0))).1;
       _frontier_side_indices :=
         (masked_indices missing_index
            (mark_from
               (fun s => negb (eqb (inner_in geo arg test s)
                                   (outer_in geo arg test s)))
               0 n (replicate n 0))).1 |}.
Proof.
  unfold compute_side_indices_from_cells.
  destruct (classify_sides geo arg test) as [masks|] eqn:Hmasks; [| done].
  pose proof (classify_sides_Some _ Hmasks) as [Hn Hdef].
  rewrite classify_sides_marks in Hmasks by done.
  injection Hmasks as <-. cbn. intros [= <-]. done.
Qed.

(** X13: which sides end up in which array: the partition sides are the sides
    whose inner cell passes the test, the boundary sides are those of them
    whose two cells coincide, and the frontier sides are the sides whose
    two cells get different answers. *)
Theorem compute_side_indices_membership (self : t) (s : Z) :
  compute_side_indices_from_cells geo arg test missing_index = Some self ->
  (s ∈ _partition_side_indices self
   <-> 0 <= s < Geometry.side_count geo /\ test arg (inner s) = Some true)
  /\ (s ∈ _boundary_side_indices self
      <-> 0 <= s < Geometry.side_count geo
          /\ test arg (inner s) = Some true /\ inner s = outer s)
  /\ (s ∈ _frontier_side_indices self
      <-> 0 <= s < Geometry.side_count geo
          /\ exists a b, test arg (inner s) = Some a
                         /\ test arg (outer s) = Some b /\ a <> b).
Proof.
  intros [[Hn Hdef] ->]%compute_side_indices_Some. cbn.
  rewrite !masked_indices_mark_from_elem, Z2Nat.id by done.
  unfold inner_in, outer_in, same_cell.
  assert (0 <= s < Geometry.side_count geo ->
    exists a b, test arg (inner s) = Some a /\ test arg (outer s) = Some b)
    as Hab.
  { intros Hs. destruct (Hdef s Hs) as [[a Ha] [b Hb]]. eauto. }
  split_and!; (split; intros [Hs H]; (split; [done |]));
    destruct (Hab Hs) as (a & b & Ha & Hb); rewrite ?Ha, ?Hb in *; cbn in *.
  - by subst.
  - by injection H as ->.
  - apply andb_true_iff in H as [-> ?%Z.eqb_eq]. done.
  - destruct H as [[= ->] ->]. by rewrite Z.eqb_refl.
  - exists a, b. split_and!; [done.. |]. by destruct a, b.
  - destruct H as (a' & b' & [= <-] & [= <-] & Hne). by destruct a, b.
Qed.

(** X14: no side is both a frontier side and a boundary side. *)
Theorem frontier_boundary_disjoint (self : t) (s : Z) :
  compute_side_indices_from_cells geo arg test missing_index = Some self ->
  s ∈ _frontier_side_indices self -> s ∉ _boundary_side_indices self.
Proof.
  intros [_ ->]%compute_side_indices_Some. cbn.
  rewrite !masked_indices_mark_from_elem.
  unfold inner_in, outer_in, same_cell.
  intros [_ Hf] [_ [Hi Hsame%Z.eqb_eq]%andb_true_iff].
  rewrite <- Hsame in Hf.
  by destruct (default false (test arg (inner s))).
Qed.

(** X15: the counts are ordered:
    [boundary_side_count() <= side_count() <= geometry.side_count()], and
    [frontier_side_count() <= geometry.side_count()]. *)
Theorem side_counts_ordered (self : t) :
  compute_side_indices_from_cells geo arg test missing_index = Some self ->
  0 <= boundary_side_count self <= side_count self
  /\ side_count self <= Geometry.side_count geo
  /\ 0 <= frontier_side_count self <= Geometry.side_count geo.
Proof.
  intros [[Hn _] ->]%compute_side_indices_Some.
  unfold boundary_side_count, side_count, frontier_side_count,
    WarpArray.shape0, masked_indices. cbn.
  pose proof (masked_indices_from_length missing_index
    (mark_from (inner_in geo arg test) 0 n (replicate n 0)) 0 0) as Hp.
  pose proof (masked_indices_from_length missing_index
    (mark_from (fun s => negb (eqb (inner_in geo arg test s)
                                   (outer_in geo arg test s)))
       0 n (replicate n 0)) 0 0) as Hf.
  rewrite length_mark_from, length_replicate in Hp, Hf.
  pose (pl := (masked_indices missing_index
                 (mark_from (inner_in geo arg test) 0 n (replicate n 0))).1).
  pose (bl := (masked_indices missing_index
                 (mark_from
                    (fun s => inner_in geo arg test s && same_cell geo s)
                    0 n (replicate n 0))).1).
  assert (length bl <= length pl)%nat as Hb.
  { apply submseteq_length, NoDup_submseteq; [apply masked_indices_NoDup |].
    intros x. unfold bl, pl. rewrite !masked_indices_mark_from_elem.
    intros [Hx [Hi _]%andb_true_iff]. done. }
  unfold bl, pl, masked_indices in Hb. lia.
Qed.

End Indices.

(** X16: the frontier is shared: when a second inclusion test gives the opposite
    answer on the neighbours of every side (the partition that owns the
    other cells), both classifications have the same frontier sides. *)
Theorem frontier_of_complement {A B : Type} (geo : Geometry.t)
    (arg1 : A) (test1 : A -> Z -> option bool)
    (arg2 : B) (test2 : B -> Z -> option bool) (missing_index : Z)
    (self1 self2 : CellBasedGeometryPartition.t) :
  (forall s, 0 <= s < Geometry.side_count geo ->
     test2 arg2
       (Geometry.side_inner_cell_index geo (Geometry.side_arg_value geo) s)
     = negb <$> test1 arg1
         (Geometry.side_inner_cell_index geo (Geometry.side_arg_value geo) s)
     /\ test2 arg2
          (Geometry.side_outer_cell_index geo (Geometry.side_arg_value geo) s)
        = negb <$> test1 arg1
            (Geometry.side_outer_cell_index geo (Geometry.side_arg_value geo) s)) ->
  CellBasedGeometryPartition.compute_side_indices_from_cells
    geo arg1 test1 missing_index = Some self1 ->
  CellBasedGeometryPartition.compute_side_indices_from_cells
    geo arg2 test2 missing_index = Some self2 ->
  CellBasedGeometryPartition._frontier_side_indices self1
  = CellBasedGeometryPartition._frontier_side_indices self2.
Proof.
  intros Hopp [[Hn Hdef] ->]%compute_side_indices_Some
    [_ ->]%compute_side_indices_Some. cbn.
  f_equal. f_equal. apply mark_from_ext. intros s Hs.
  unfold inner_in, outer_in.
  destruct (Hopp s ltac:(lia)) as [-> ->].
  destruct (Hdef s ltac:(lia)) as [[a ->] [b ->]]. cbn. by destruct a, b.
Qed.

Lemma compute_side_indices_membership_witness :
  (3 ∈ CellBasedGeometryPartition._partition_side_indices
         (LinearGeometryPartition.base rank1_of_2)
   <-> 0 <= 3 < 5
       /\ Some (LinearGeometryPartition._cell_inclusion_test
                  (LinearGeometryPartition.cell_arg_value rank1_of_2) 2)
          = Some true)
  /\ (3 ∈ CellBasedGeometryPartition._boundary_side_indices
            (LinearGeometryPartition.base rank1_of_2)
      <-> 0 <= 3 < 5
          /\ Some (LinearGeometryPartition._cell_inclusion_test
                     (LinearGeometryPartition.cell_arg_value rank1_of_2) 2)
             = Some true
          /\ 2 = 3)
  /\ (3 ∈ CellBasedGeometryPartition._frontier_side_indices
            (LinearGeometryPartition.base rank1_of_2)
      <-> 0 <= 3 < 5
          /\ exists a b,
               Some (LinearGeometryPartition._cell_inclusion_test
                       (LinearGeometryPartition.cell_arg_value rank1_of_2) 2)
               = Some a
               /\ Some (LinearGeometryPartition._cell_inclusion_test
                          (LinearGeometryPartition.cell_arg_value rank1_of_2) 3)
                  = Some b
               /\ a <> b).
Proof.
  apply (compute_side_indices_membership (chain 4)
           (LinearGeometryPartition.cell_arg_value rank1_of_2)
           (fun a c => Some (LinearGeometryPartition._cell_inclusion_test a c))
           (-1) (LinearGeometryPartition.base rank1_of_2) 3).
  reflexivity.
Defined.

Lemma frontier_boundary_disjoint_witness :
  2 ∉ CellBasedGeometryPartition._boundary_side_indices
        (LinearGeometryPartition.base rank1_of_2).
Proof.
  apply (frontier_boundary_disjoint (chain 4)
           (LinearGeometryPartition.cell_arg_value rank1_of_2)
           (fun a c => Some (LinearGeometryPartition._cell_inclusion_test a c))
           (-1) (LinearGeometryPartition.base rank1_of_2) 2).
  - reflexivity.
  - vm_compute. constructor.
Defined.

Lemma side_counts_ordered_witness :
  0 <= CellBasedGeometryPartition.boundary_side_count
         (LinearGeometryPartition.base rank1_of_2)
    <= CellBasedGeometryPartition.side_count
         (LinearGeometryPartition.base rank1_of_2)
  /\ CellBasedGeometryPartition.side_count
       (LinearGeometryPartition.base rank1_of_2) <= 5
  /\ 0 <= CellBasedGeometryPartition.frontier_side_count
            (LinearGeometryPartition.base rank1_of_2) <= 5.
Proof.
  apply (side_counts_ordered (chain 4)
           (LinearGeometryPartition.cell_arg_value rank1_of_2)
           (fun a c => Some (LinearGeometryPartition._cell_inclusion_test a c))
           (-1) (LinearGeometryPartition.base rank1_of_2)).
  reflexivity.
Defined.

Lemma frontier_of_complement_witness :
  CellBasedGeometryPartition._frontier_side_indices
    (ExplicitGeometryPartition.base alternate_cells)
  = [1; 2; 3].
Proof.
  apply (frontier_of_complement (chain 4)
           [1; 0; 1; 0] ExplicitGeometryPartition._cell_inclusion_test
           [0; 1; 0; 1] ExplicitGeometryPartition._cell_inclusion_test
           (-1) (ExplicitGeometryPartition.base alternate_cells)
           {| CellBasedGeometryPartition.geometry := chain 4;
              CellBasedGeometryPartition._partition_side_indices := [2; 4];
              CellBasedGeometryPartition._boundary_side_indices := [4];
              CellBasedGeometryPartition._frontier_side_indices := [1; 2; 3] |}).
  - intros s Hs. cbn in Hs.
    assert (s = 0 \/ s = 1 \/ s = 2 \/ s = 3 \/ s = 4) as Hcases by lia.
    destruct Hcases as [-> | [-> | [-> | [-> | ->]]]]; split; reflexivity.
  - reflexivity.
  - reflexivity.
Defined.

(** ** Construction of the linear and explicit partitions *)

Lemma linear_init_Some (missing_index : Z) (geo : Geometry.t)
    (rank count : Z) (p : LinearGeometryPartition.t) :
  LinearGeometryPartition.__init__ missing_index geo rank count = Some p ->
  LinearGeometryPartition.cell_range (Geometry.cell_count geo) rank count
  = Some (LinearGeometryPartition.cell_begin p,
          LinearGeometryPartition.cell_end p)
  /\ CellBasedGeometryPartition.compute_side_indices_from_cells geo
       (LinearGeometryPartition.cell_arg_value p)
       (fun a c => Some (LinearGeometryPartition._cell_inclusion_test a c))
       missing_index
     = Some (LinearGeometryPartition.base p).
Proof.
  unfold LinearGeometryPartition.__init__.
  destruct (LinearGeometryPartition.cell_range _ _ _) as [[b e]|]; [| done].
  cbn.
  destruct (CellBasedGeometryPartition.compute_side_indices_from_cells
              _ _ _ _) as [base|] eqn:Hbase; [| done].
  intros [= <-]. done.
Qed.

Lemma explicit_init_Some (missing_index : Z) (geo : Geometry.t)
    (cell_mask : list Z) (p : ExplicitGeometryPartition.t) :
  ExplicitGeometryPartition.__init__ missing_index geo cell_mask = Some p ->
  ExplicitGeometryPartition._cell_mask p = cell_mask
  /\ ExplicitGeometryPartition._cells p
     = (masked_indices missing_index cell_mask).1
  /\ ExplicitGeometryPartition._partition_cells p
     = (masked_indices missing_index cell_mask).2
  /\ CellBasedGeometryPartition.compute_side_indices_from_cells geo cell_mask
       ExplicitGeometryPartition._cell_inclusion_test missing_index
     = Some (ExplicitGeometryPartition.base p).
Proof.
  unfold ExplicitGeometryPartition.__init__.
  destruct (CellBasedGeometryPartition.compute_side_indices_from_cells
              _ _ _ _) as [base|] eqn:Hbase; [| done].
  intros [= <-]. done.
Qed.


Lemma linear_init_total (missing_index : Z) (geo : Geometry.t)
    (rank count : Z) :
  count <> 0 -> 0 <= Geometry.side_count geo ->
  is_Some (LinearGeometryPartition.__init__ missing_index geo rank count).
Proof.
  intros Hc Hn.
  unfold LinearGeometryPartition.__init__, LinearGeometryPartition.cell_range,
    CellBasedGeometryPartition.compute_side_indices_from_cells.
  destruct (Z.eqb_spec count 0); [done |]. cbn.
  rewrite classify_sides_marks; [| done | intros s _; split; eauto].
  cbn. eauto.
Qed.

(** X17: a linear partition can be built exactly when the partition count is
    not zero and the side count of the geometry is not negative. *)
Theorem linear_init_succeeds (missing_index : Z) (geo : Geometry.t)
    (rank count : Z) :
  is_Some (LinearGeometryPartition.__init__ missing_index geo rank count)
  <-> count <> 0 /\ 0 <= Geometry.side_count geo.
Proof.
  unfold LinearGeometryPartition.__init__, LinearGeometryPartition.cell_range,
    CellBasedGeometryPartition.compute_side_indices_from_cells.
  destruct (Z.eqb_spec count 0) as [-> | Hc]; cbn.
  - split; [by intros [? ?] | by intros [? _]].
  - destruct (decide (0 <= Geometry.side_count geo)) as [Hn | Hn].
    + rewrite classify_sides_marks; [| done | intros s _; split; eauto].
      cbn. split; [done | eauto].
    + unfold CellBasedGeometryPartition.classify_sides, WarpArray.zeros.
      rewrite decide_False by done. cbn. split; [by intros [? ?] | tauto].
Qed.



(** ** Which linear partition owns a side *)

Lemma linear_partition_side_elem (missing_index : Z) (geo : Geometry.t)
    (rank count : Z) (p : LinearGeometryPartition.t) (s : Z) :
  LinearGeometryPartition.__init__ missing_index geo rank count = Some p ->
  s ∈ CellBasedGeometryPartition._partition_side_indices
        (LinearGeometryPartition.base p)
  <-> 0 <= s < Geometry.side_count geo
      /\ LinearGeometryPartition.cell_begin p
         <= Geometry.side_inner_cell_index geo (Geometry.side_arg_value geo) s
         < LinearGeometryPartition.cell_end p.
Proof.
  intros [_ [[Hn _] ->]%compute_side_indices_Some]%linear_init_Some. cbn.
  rewrite masked_indices_mark_from_elem, Z2Nat.id by done.
  unfold inner_in. cbn. by rewrite inclusion_test_range.
Qed.

Lemma cell_range_fits (C P r b e : Z) :
  0 <= C -> 1 <= P -> Int32.in_range (C + P) -> 0 <= r < P ->
  LinearGeometryPartition.cell_range C r P = Some (b, e) ->
  Int32.in_range b /\ Int32.in_range e.
Proof.
  unfold Int32.in_range, Int32.min_signed, Int32.max_signed.
  intros HC HP Hfit Hr. rewrite cell_range_eq by done. intros [= <- <-].
  destruct (chunk_covers C P HC HP) as [Hc0 _].
  assert (LinearGeometryPartition.cells_per_partition C P * P <= C + P - 1)
    as Hfloor.
  { unfold LinearGeometryPartition.cells_per_partition.
    pose proof (Z_div_mod_eq_full (C + P - 1) P).
    pose proof (Z.mod_pos_bound (C + P - 1) P ltac:(lia)). nia. }
  split; nia.
Qed.

(** X19: when the cell count and the partition count together fit 32
    bits, the [cell_begin] and [cell_end] of every rank [0 .. P-1] fit
    the 32-bit fields of [CellArg], and every side of a well-formed
    geometry is a partition side of exactly one of these ranks: the one
    that owns its inner cell. *)
Theorem linear_side_owner (missing_index : Z) (geo : Geometry.t)
    (P s : Z) :
  Geometry.wf geo -> 1 <= P ->
  Int32.in_range (Geometry.cell_count geo + P) ->
  0 <= s < Geometry.side_count geo ->
  exists r p,
    0 <= r < P
    /\ LinearGeometryPartition.__init__ missing_index geo r P = Some p
    /\ s ∈ CellBasedGeometryPartition._partition_side_indices
             (LinearGeometryPartition.base p)
    /\ forall r' p',
         0 <= r' < P ->
         LinearGeometryPartition.__init__ missing_index geo r' P = Some p' ->
         LinearGeometryPartition.CellArg.wf
           (LinearGeometryPartition.cell_arg_value p')
         /\ (s ∈ CellBasedGeometryPartition._partition_side_indices
                   (LinearGeometryPartition.base p') ->
             r' = r).
Proof.
  intros [Hc Hn Hin _] HP Hfit Hs.
  destruct (cell_range_cover (Geometry.cell_count geo) P Hc HP _ (Hin s Hs))
    as (r & b & e & Hr & Hrange & Hg).
  destruct (linear_init_total missing_index geo r P) as [p Hp];
    [lia | done |].
  pose proof (linear_init_Some _ _ _ _ _ Hp) as [Hrange' _].
  rewrite Hrange in Hrange'. injection Hrange' as Hb He.
  exists r, p. split_and!; [lia | lia | done | |].
  - apply (linear_partition_side_elem _ _ _ _ _ _ Hp). split; [done | lia].
  - intros r' p' Hr' Hp'.
    pose proof (linear_init_Some _ _ _ _ _ Hp') as [Hrange' _]. split.
    + exact (cell_range_fits _ P r' _ _ Hc HP Hfit Hr' Hrange').
    + intros Hs'.
      apply (linear_partition_side_elem _ _ _ _ _ _ Hp') in Hs' as [_ Hg'].
      exact (cell_range_disjoint _ P Hc HP r' r _ _ b e _
               Hrange' Hrange Hg' Hg).
Qed.

Lemma linear_side_owner_witness :
  exists r p,
    0 <= r < 2
    /\ LinearGeometryPartition.__init__ (-1) (chain 4) r 2 = Some p
    /\ 3 ∈ CellBasedGeometryPartition._partition_side_indices
             (LinearGeometryPartition.base p)
    /\ forall r' p',
         0 <= r' < 2 ->
         LinearGeometryPartition.__init__ (-1) (chain 4) r' 2 = Some p' ->
         LinearGeometryPartition.CellArg.wf
           (LinearGeometryPartition.cell_arg_value p')
         /\ (3 ∈ CellBasedGeometryPartition._partition_side_indices
                   (LinearGeometryPartition.base p') ->
             r' = r).
Proof.
  apply (linear_side_owner (-1) (chain 4) 2 3).
  - apply chain_wf. lia.
  - lia.
  - vm_compute. split; discriminate.
  - vm_compute. split; [discriminate | reflexivity].
Defined.

(** ** The explicit partition, continued *)

Lemma masked_indices_from_forward (missing_index : Z) (mask : list Z)
    (pos count : Z) (k : nat) (v : Z) :
  mask !! k = Some v -> v <> 0 ->
  exists i : nat,
    (masked_indices_from missing_index pos count mask).2 !! k
    = Some (count + Z.of_nat i)
    /\ (masked_indices_from missing_index pos count mask).1 !! i
       = Some (pos + Z.of_nat k).
Proof.
  revert pos count k. induction mask as [|m rest IH]; intros pos count k;
    [done |].
  cbn [masked_indices_from]. destruct k as [|k]; cbn [lookup list_lookup].
  - intros [= ->] Hv. rewrite decide_False by done. exists O. cbn.
    rewrite !Z.add_0_r. done.
  - intros Hk Hv. case_decide as Hm; cbn [fst snd].
    + destruct (IH (pos + 1) count k Hk Hv) as (i & Hinv & Hidx).
      exists i. split; [done |]. rewrite Hidx. f_equal. lia.
    + destruct (IH (pos + 1) (count + 1) k Hk Hv) as (i & Hinv & Hidx).
      exists (S i). split.
      * change ((masked_indices_from missing_index (pos + 1) (count + 1)
                   rest).2 !! k = Some (count + Z.of_nat (S i))).
        rewrite Hinv. f_equal. lia.
      * change ((masked_indices_from missing_index (pos + 1) (count + 1)
                   rest).1 !! i = Some (pos + Z.of_nat (S k))).
        rewrite Hidx. f_equal. lia.
Qed.

Lemma explicit_test_true (mask : list Z) (g : Z) :
  ExplicitGeometryPartition._cell_inclusion_test mask g = Some true
  <-> 0 <= g /\ exists v, mask !! Z.to_nat g = Some v /\ 0 < v.
Proof.
  unfold ExplicitGeometryPartition._cell_inclusion_test, WarpArray.load.
  case_decide as Hg; [| split; [done | tauto]].
  destruct (mask !! Z.to_nat g) as [m|]; cbn.
  - split.
    + intros [= Hm]. split; [done |]. exists m. split; [done | lia].
    + intros [_ (v & [= <-] & Hv)]. f_equal. lia.
  - split; [done | by intros [_ (v & ? & _)]].
Qed.

Section ExplicitMore.

Import ExplicitGeometryPartition.

Variable missing_index : Z.

(** X20: the other round trip: a cell that the inclusion test accepts has a
    local index below [cell_count()], and [cell_index] leads back from it
    to the cell. *)
Theorem explicit_roundtrip_global (geo : Geometry.t) (cell_mask : list Z)
    (p : t) (g : Z) :
  is_mask cell_mask ->
  __init__ missing_index geo cell_mask = Some p ->
  _cell_inclusion_test cell_mask g = Some true ->
  exists i,
    partition_cell_index (cell_arg_value p) g = Some i
    /\ 0 <= i < cell_count p
    /\ cell_index (cell_arg_value p) i = Some g.
Proof.
  intros _ (_ & Hcells & Hinv & _)%explicit_init_Some
    [Hg (v & Hv & Hpos)]%explicit_test_true.
  destruct (masked_indices_from_forward missing_index cell_mask 0 0
              (Z.to_nat g) v Hv ltac:(lia)) as (i & Hi & Hidx).
  exists (Z.of_nat i).
  unfold partition_cell_index, cell_index, cell_count, WarpArray.shape0.
  cbn. rewrite Hcells, Hinv. unfold masked_indices.
  rewrite !load_lookup by lia. rewrite Nat2Z.id.
  rewrite Z.add_0_l in Hi, Hidx. rewrite Z2Nat.id in Hidx by done.
  split_and!; [done | lia | | done].
  apply lookup_lt_Some in Hidx. lia.
Qed.

(** X21: the cells that [cell_index] enumerates are exactly the cells that the
    inclusion test accepts. *)
Theorem explicit_cells_accepted (geo : Geometry.t) (cell_mask : list Z)
    (p : t) (g : Z) :
  is_mask cell_mask ->
  __init__ missing_index geo cell_mask = Some p ->
  (exists i, cell_index (cell_arg_value p) i = Some g)
  <-> _cell_inclusion_test cell_mask g = Some true.
Proof.
  intros Hmask (_ & Hcells & _ & _)%explicit_init_Some.
  unfold cell_index. cbn. rewrite Hcells, explicit_test_true. split.
  - intros [i Hi]. unfold WarpArray.load in Hi. case_decide; [| done].
    apply list_elem_of_lookup_2 in Hi.
    apply masked_indices_from_elem in Hi as (k & v & Hk & Hv & ->).
    rewrite Z.add_0_l, Nat2Z.id. split; [lia |]. exists v. split; [done |].
    destruct (proj1 (list.Forall_lookup _ _) Hmask _ _ Hk); lia.
  - intros [Hg (v & Hv & Hpos)].
    destruct (masked_indices_from_forward missing_index cell_mask 0 0
                (Z.to_nat g) v Hv ltac:(lia)) as (i & _ & Hidx).
    exists (Z.of_nat i). rewrite load_lookup, Nat2Z.id by lia.
    unfold masked_indices. rewrite Hidx. f_equal. lia.
Qed.

End ExplicitMore.

Lemma explicit_roundtrip_global_witness :
  exists i,
    ExplicitGeometryPartition.partition_cell_index
      (ExplicitGeometryPartition.cell_arg_value alternate_cells) 2 = Some i
    /\ 0 <= i < ExplicitGeometryPartition.cell_count alternate_cells
    /\ ExplicitGeometryPartition.cell_index
         (ExplicitGeometryPartition.cell_arg_value alternate_cells) i = Some 2.
Proof.
  apply (explicit_roundtrip_global (-1) (chain 4) [1; 0; 1; 0]
           alternate_cells 2).
  - repeat (constructor; [lia |]). constructor.
  - reflexivity.
  - reflexivity.
Defined.

Lemma explicit_cells_accepted_witness :
  (exists i,
     ExplicitGeometryPartition.cell_index
       (ExplicitGeometryPartition.cell_arg_value alternate_cells) i = Some 2)
  <-> ExplicitGeometryPartition._cell_inclusion_test [1; 0; 1; 0] 2 = Some true.
Proof.
  apply (explicit_cells_accepted (-1) (chain 4) [1; 0; 1; 0]
           alternate_cells 2).
  - repeat (constructor; [lia |]). constructor.
  - reflexivity.
Defined.

(** ** Equality and names *)

Lemma whole_eq_other_class_witness :
  WholeGeometryPartition__eq__ (fun _ _ => true)
    (WholeGeometryPartition.__init__ (chain 4)) (Linear rank1_of_2) = false.
Proof.
  apply (whole_eq_other_class (fun _ _ => true)
           (WholeGeometryPartition.__init__ (chain 4)) (Linear rank1_of_2)).
  reflexivity.
Defined.

Lemma list_ascii_of_string_append (a b : string) :
  list_ascii_of_string (String.append a b)
  = list_ascii_of_string a ++ list_ascii_of_string b.
Proof. induction a as [|c a IH]; cbn; [done | by rewrite IH]. Qed.

Lemma list_ascii_of_string_inj (a b : string) :
  list_ascii_of_string a = list_ascii_of_string b -> a = b.
Proof.
  intros H. rewrite <- (string_of_list_ascii_of_string a),
    <- (string_of_list_ascii_of_string b). by rewrite H.
Qed.

(** X23: the name of a partition tells its class and the name of its geometry:
    two partitions with the same name are of the same class, over
    geometries of the same name. *)
Theorem partition_name_inj (p q : GeometryPartition) :
  GeometryPartition_name p = GeometryPartition_name q ->
  GeometryPartition__class____name__ p = GeometryPartition__class____name__ q
  /\ Geometry.name (GeometryPartition_geometry p)
     = Geometry.name (GeometryPartition_geometry q).
Proof.
  unfold GeometryPartition_name. intros H.
  apply (f_equal list_ascii_of_string) in H.
  rewrite !list_ascii_of_string_append in H.
  apply (f_equal (@List.rev _)) in H. rewrite !List.rev_app_distr in H.
  destruct p, q; cbn in H; try discriminate H;
    (split; [reflexivity |]);
    apply list_ascii_of_string_inj, List.rev_inj; simplify_eq; cbn; done.
Qed.

Lemma partition_name_inj_witness :
  GeometryPartition__class____name__ (Linear rank1_of_2)
  = GeometryPartition__class____name__ (Linear rank1_of_2)
  /\ Geometry.name (GeometryPartition_geometry (Linear rank1_of_2))
     = Geometry.name (GeometryPartition_geometry (Linear rank1_of_2)).
Proof.
  apply (partition_name_inj (Linear rank1_of_2) (Linear rank1_of_2)).
  reflexivity.
Defined.

(** ** The explicit partition that owns every cell *)

Lemma masked_indices_from_ones_lookup (missing_index : Z) (mask : list Z)
    (pos count : Z) (i : nat) :
  Forall (fun m => m = 1) mask -> (i < length mask)%nat ->
  (masked_indices_from missing_index pos count mask).1 !! i
  = Some (pos + Z.of_nat i)
  /\ (masked_indices_from missing_index pos count mask).2 !! i
     = Some (count + Z.of_nat i).
Proof.
  intros Hones. revert pos count i.
  induction Hones as [|m rest -> _ IH]; intros pos count i Hi;
    [cbn in Hi; lia |].
  cbn [masked_indices_from]. rewrite decide_False by done. cbn [fst snd].
  destruct i as [|i].
  - cbn. rewrite !Z.add_0_r. done.
  - cbn in Hi.
    destruct (IH (pos + 1) (count + 1) i ltac:(lia)) as [Hidx Hinv].
    change ((masked_indices_from missing_index (pos + 1) (count + 1) rest).1
              !! i = Some (pos + Z.of_nat (S i))
            /\ (masked_indices_from missing_index (pos + 1) (count + 1) rest).2
              !! i = Some (count + Z.of_nat (S i))).
    rewrite Hidx, Hinv. split; f_equal; lia.
Qed.

Lemma mark_from_all_set (c : Z -> bool) (n : nat) :
  (forall s, 0 <= s < Z.of_nat n -> c s = true) ->
  Forall (fun m => m = 1) (mark_from c 0 n (replicate n 0)).
Proof.
  intros Hc. apply list.Forall_lookup. intros j v Hj.
  assert (j < n)%nat as Hlt.
  { apply lookup_lt_Some in Hj.
    by rewrite length_mark_from, length_replicate in Hj. }
  rewrite lookup_mark_from_zeros in Hj by done.
  rewrite Hc in Hj by lia. congruence.
Qed.

Lemma mark_from_none_set (c : Z -> bool) (n : nat) :
  (forall s, 0 <= s < Z.of_nat n -> c s = false) ->
  Forall (fun m => m = 0) (mark_from c 0 n (replicate n 0)).
Proof.
  intros Hc. apply list.Forall_lookup. intros j v Hj.
  assert (j < n)%nat as Hlt.
  { apply lookup_lt_Some in Hj.
    by rewrite length_mark_from, length_replicate in Hj. }
  rewrite lookup_mark_from_zeros in Hj by done.
  rewrite Hc in Hj by lia. congruence.
Qed.

(** A duplicate-free list that holds exactly the images of [0 .. n-1]
    under a map that is injective there has [n] entries. *)
Lemma NoDup_image_length (f : Z -> Z) (n : Z) (l : list Z) :
  0 <= n -> NoDup l ->
  (forall i j, 0 <= i < n -> 0 <= j < n -> f i = f j -> i = j) ->
  (forall x, x ∈ l <-> exists i, 0 <= i < n /\ f i = x) ->
  Z.of_nat (length l) = n.
Proof.
  intros Hn Hl Hinj Himg.
  assert (l ≡ₚ f <$> seqZ 0 n) as Hperm.
  { apply NoDup_Permutation; [done | |].
    - apply NoDup_fmap_2_strong; [| apply NoDup_seqZ].
      intros i j Hi%elem_of_seqZ Hj%elem_of_seqZ. apply Hinj; lia.
    - intros x. rewrite Himg, list_elem_of_fmap. split.
      + intros (i & Hi & <-). exists i. split; [done |].
        apply elem_of_seqZ. lia.
      + intros (i & -> & Hi%elem_of_seqZ). exists i. split; [lia | done]. }
  rewrite Hperm, length_fmap, length_seqZ. lia.
Qed.

Section ExplicitWhole.

Import ExplicitGeometryPartition.

Variable missing_index : Z.

(** C7: on a well-formed geometry, the explicit partition built from the
    mask that has a 1 for every cell exists and reproduces the whole
    partition [w] of the geometry: it has no frontier side and owns as many
    cells as the geometry has; its [frontier_side_count()], [cell_count()]
    and [side_count()] are those of [w]; [cell_index],
    [partition_cell_index] and [side_index] return, on every local index,
    what those of [w] return; its boundary sides are exactly the sides
    whose inner and outer cell coincide; and where the geometry lists
    those same sides as its boundary sides, its [boundary_side_count()] is
    that of [w] and its boundary sides are the sides that the
    [boundary_side_index] of [w] enumerates. *)
Theorem explicit_all_ones (geo : Geometry.t) (cell_mask : list Z) :
  Geometry.wf geo ->
  WarpArray.shape0 cell_mask = Geometry.cell_count geo ->
  Forall (fun m => m = 1) cell_mask ->
  exists p,
    __init__ missing_index geo cell_mask = Some p
    /\ frontier_side_count p = 0
    /\ cell_count p = Geometry.cell_count geo
    /\ let w := WholeGeometryPartition.__init__ geo in
       frontier_side_count p = WholeGeometryPartition.frontier_side_count w
       /\ cell_count p = WholeGeometryPartition.cell_count w
       /\ side_count p = WholeGeometryPartition.side_count w
       /\ (forall i, 0 <= i < cell_count p ->
             cell_index (cell_arg_value p) i
             = Some (WholeGeometryPartition.cell_index w
                       (WholeGeometryPartition.cell_arg_value w) i)
             /\ partition_cell_index (cell_arg_value p) i
                = Some (WholeGeometryPartition.partition_cell_index w
                          (WholeGeometryPartition.cell_arg_value w) i))
       /\ (forall i, 0 <= i < side_count p ->
             CellBasedGeometryPartition.side_index
               (CellBasedGeometryPartition.side_arg_value (base p)) i
             = Some (WholeGeometryPartition.side_index w
                       (WholeGeometryPartition.side_arg_value w) i))
       /\ (forall s,
             s ∈ CellBasedGeometryPartition._boundary_side_indices (base p)
             <-> 0 <= s < Geometry.side_count geo
                 /\ Geometry.side_inner_cell_index geo
                      (Geometry.side_arg_value geo) s
                    = Geometry.side_outer_cell_index geo
                        (Geometry.side_arg_value geo) s)
       /\ (boundary_sides_consistent geo ->
           boundary_side_count p = WholeGeometryPartition.boundary_side_count w
           /\ forall s,
                s ∈ CellBasedGeometryPartition._boundary_side_indices (base p)
                <-> exists i,
                      0 <= i < WholeGeometryPartition.boundary_side_count w
                      /\ WholeGeometryPartition.boundary_side_index w
                           (WholeGeometryPartition.side_arg_value w) i = s).
Proof.
  intros [Hc Hs Hin Hout] Hlen Hones.
  assert (forall s, 0 <= s < Geometry.side_count geo ->
    tests_defined geo cell_mask _cell_inclusion_test s
    /\ inner_in geo cell_mask _cell_inclusion_test s = true
    /\ outer_in geo cell_mask _cell_inclusion_test s = true) as Htests.
  { intros s Hr. unfold tests_defined, inner_in, outer_in.
    rewrite !all_ones_lookup by (try done; rewrite Hlen; auto). eauto. }
  unfold __init__, CellBasedGeometryPartition.compute_side_indices_from_cells.
  rewrite classify_sides_marks; [| done | intros s Hr; by apply Htests].
  cbn. eexists. split; [reflexivity |].
  set (n := Z.to_nat (Geometry.side_count geo)).
  assert (Forall (fun m => m = 1)
            (mark_from (inner_in geo cell_mask _cell_inclusion_test) 0 n
               (replicate n 0))) as Hpm.
  { apply mark_from_all_set. intros s Hr. apply Htests. lia. }
  assert (Forall (fun m => m = 0)
            (mark_from
               (fun s => negb (eqb (inner_in geo cell_mask _cell_inclusion_test s)
                                   (outer_in geo cell_mask _cell_inclusion_test s)))
               0 n (replicate n 0))) as Hfm.
  { apply mark_from_none_set. intros s Hr.
    destruct (Htests s ltac:(lia)) as (_ & -> & ->). done. }
  assert (forall s,
    s ∈ (masked_indices missing_index
           (mark_from
              (fun s => inner_in geo cell_mask _cell_inclusion_test s
                        && same_cell geo s) 0 n (replicate n 0))).1
    <-> 0 <= s < Geometry.side_count geo
        /\ Geometry.side_inner_cell_index geo (Geometry.side_arg_value geo) s
           = Geometry.side_outer_cell_index geo (Geometry.side_arg_value geo) s)
    as Hbnd.
  { intros s. rewrite masked_indices_mark_from_elem. unfold n.
    rewrite Z2Nat.id by done. unfold same_cell. split.
    - intros [Hr [_ Hsame%Z.eqb_eq]%andb_true_iff]. done.
    - intros [Hr Hsame]. split; [done |].
      destruct (Htests s Hr) as (_ & -> & _). by apply Z.eqb_eq. }
  unfold frontier_side_count, side_count, boundary_side_count, cell_count,
    cell_index, partition_cell_index,
    CellBasedGeometryPartition.frontier_side_count,
    CellBasedGeometryPartition.side_count,
    CellBasedGeometryPartition.boundary_side_count,
    CellBasedGeometryPartition.side_index,
    WholeGeometryPartition.frontier_side_count,
    WholeGeometryPartition.cell_count, WholeGeometryPartition.side_count,
    WholeGeometryPartition.boundary_side_count,
    WholeGeometryPartition._identity_element_index,
    WarpArray.shape0, masked_indices. cbn.
  rewrite masked_indices_from_zeros by done.
  rewrite !masked_indices_from_ones_length by done.
  rewrite length_mark_from, length_replicate.
  split_and!; try done; try (unfold n; lia).
  - intros i Hi. rewrite !load_lookup by lia.
    destruct (masked_indices_from_ones_lookup missing_index cell_mask 0 0
                (Z.to_nat i) Hones ltac:(lia)) as [-> ->].
    split; f_equal; lia.
  - intros i Hi. rewrite load_lookup by lia.
    destruct (masked_indices_from_ones_lookup missing_index _ 0 0
                (Z.to_nat i) Hpm) as [-> _];
      [rewrite length_mark_from, length_replicate; lia | f_equal; lia].
  - intros (Hbc & Hinj & Himg). split.
    + apply (NoDup_image_length
               (Geometry.boundary_side_index geo
                  (Geometry.side_index_arg_value geo))); [done | | done |].
      * apply (masked_indices_NoDup missing_index).
      * intros s. fold (masked_indices missing_index
          (mark_from
             (fun s => inner_in geo cell_mask _cell_inclusion_test s
                       && same_cell geo s) 0 n (replicate n 0))).
        by rewrite Hbnd, Himg.
    + intros s. fold (masked_indices missing_index
        (mark_from
           (fun s => inner_in geo cell_mask _cell_inclusion_test s
                     && same_cell geo s) 0 n (replicate n 0))).
      by rewrite Hbnd, Himg.
Qed.

End ExplicitWhole.

Lemma chain_boundary_sides_consistent (n : Z) :
  1 <= n -> boundary_sides_consistent (chain n).
Proof.
  intros Hn. unfold boundary_sides_consistent. cbn. split_and!; [lia | |].
  - intros i j Hi Hj.
    destruct (Z.eqb_spec i 0), (Z.eqb_spec j 0); lia.
  - intros s. split.
    + intros (i & Hi & <-).
      destruct (Z.eqb_spec i 0) as [-> | Hne].
      * rewrite Z.eqb_refl. destruct (Z.eqb_spec 0 n); lia.
      * rewrite Z.eqb_refl. destruct (Z.eqb_spec n 0); lia.
    + intros [Hs Hsame].
      destruct (Z.eqb_spec s 0) as [-> | Hne0].
      * exists 0. split; [lia | done].
      * exists 1. split; [lia |]. cbn.
        destruct (Z.eqb_spec s n); lia.
Qed.

Lemma explicit_all_ones_witness :
  exists p,
    ExplicitGeometryPartition.__init__ (-1) (chain 4) [1; 1; 1; 1] = Some p
    /\ ExplicitGeometryPartition.frontier_side_count p = 0
    /\ ExplicitGeometryPartition.cell_count p = 4
    /\ ExplicitGeometryPartition.side_count p = 5
    /\ ExplicitGeometryPartition.boundary_side_count p = 2.
Proof.
  destruct (explicit_all_ones (-1) (chain 4) [1; 1; 1; 1])
    as (p & Hp & Hf & Hc & _ & _ & Hs & _ & _ & _ & Hb).
  - apply chain_wf. lia.
  - reflexivity.
  - repeat constructor.
  - exists p. split_and!; [done | done | done | done |].
    apply Hb, chain_boundary_sides_consistent. lia.
Defined.
